(** * ARER audio-visual codec: encoder data path and its two driver scripts

    A shallow embedding of
    - [models/autoencoder/modules/encoder.py]  (visual extractors,
      [EncoderBlock], [Encoder]),
    - [codecStatistic.py]  ([StatisticMain], from [_load_config] to [run]),
    - [codecTest.py]       ([TestMain]: dataset and model loading, [encode],
      [decode], [initial_folder]),
    together with the properties the specification states about them.

    Python exceptions are values of [exn]; a call that may raise returns a
    [result].  Code with side effects (streaming buffers, standard output,
    files written, attributes assigned) threads a world through the monad
    [M], in which the world survives a raised exception, as it does in
    Python.  Tensors carry their shape and their row-major contents. *)

From Stdlib Require Import String Ascii Arith PeanoNat ZArith Lia Bool List.
From Stdlib Require Import Floats.
Import ListNotations.

Set Implicit Arguments.
Set Warnings "-register-all".

(* ================================================================== *)
(** * Python exceptions and results *)
(* ================================================================== *)

Module Py.

Inductive exn : Type :=
| TypeError
| IndexError
| KeyError
| NameError
| UnboundLocalError
| AttributeError
| AssertionError
| RuntimeError
| ValueError
| NotImplementedError
| ModeMismatchError
| OSError.

Inductive result (A : Type) : Type :=
| Ok (a : A)
| Raise (e : exn).

Arguments Ok {A} a.
Arguments Raise {A} e.

Definition rbind {A B} (r : result A) (k : A -> result B) : result B :=
  match r with
  | Ok a => k a
  | Raise e => Raise e
  end.

Definition raised {A} (r : result A) : bool :=
  match r with Ok _ => false | Raise _ => true end.

(** State-and-exception monad: the world is returned in both outcomes. *)
Definition M (W A : Type) : Type := W -> result A * W.

Definition ret {W A} (a : A) : M W A := fun w => (Ok a, w).
Definition throw {W A} (e : exn) : M W A := fun w => (Raise e, w).
Definition bind {W A B} (m : M W A) (k : A -> M W B) : M W B :=
  fun w => match m w with
           | (Ok a, w') => k a w'
           | (Raise e, w') => (Raise e, w')
           end.
Definition lift {W A} (r : result A) : M W A := fun w => (r, w).
Definition get {W} : M W W := fun w => (Ok w, w).
Definition modify {W} (f : W -> W) : M W unit := fun w => (Ok tt, f w).

End Py.
Import Py.

Declare Scope py_scope.
Delimit Scope py_scope with py.
Notation "x <- r ;; k" := (rbind r (fun x => k))
  (at level 61, r at next level, right associativity) : py_scope.
Notation "x <~ m ;; k" := (bind m (fun x => k))
  (at level 61, m at next level, right associativity) : py_scope.
Notation "m ;;; k" := (bind m (fun _ => k))
  (at level 61, right associativity) : py_scope.
Local Open Scope py_scope.

(* ================================================================== *)
(** * Tensors (torch.Tensor, numpy.ndarray) *)
(* ================================================================== *)

Module Torch.

Record Tensor : Type := mkTensor {
  shape : list nat;
  data : list float          (* row-major contents *)
}.

Definition numel (sh : list nat) : nat := fold_right Nat.mul 1 sh.
Definition ndim (t : Tensor) : nat := length (shape t).

(** The contents fill the shape. *)
Definition wf (t : Tensor) : Prop := length (data t) = numel (shape t).

Definition shape_eqb (s1 s2 : list nat) : bool :=
  if list_eq_dec Nat.eq_dec s1 s2 then true else false.

(** [t.shape[i]]: indexing a [torch.Size] past its end raises. *)
Definition size_at (sh : list nat) (i : nat) : result nat :=
  match nth_error sh i with
  | Some n => Ok n
  | None => Raise IndexError
  end.

(** [t.squeeze(-1)]: drops the last axis when its length is 1, else
    returns the tensor unchanged. *)
Definition squeeze_last (t : Tensor) : Tensor :=
  if last (shape t) 0 =? 1
  then {| shape := removelast (shape t); data := data t |}
  else t.

(** [t.squeeze(0)]. *)
Definition squeeze0 (t : Tensor) : Tensor :=
  match shape t with
  | 1 :: rest => {| shape := rest; data := data t |}
  | _ => t
  end.

(** [t.unsqueeze(0)]. *)
Definition unsqueeze0 (t : Tensor) : Tensor :=
  {| shape := 1 :: shape t; data := data t |}.

(** [t.reshape(s0, s1, ...)] with explicit sizes: the element counts must
    agree. *)
Definition reshape (t : Tensor) (sh : list nat) : result Tensor :=
  if numel sh =? numel (shape t)
  then Ok {| shape := sh; data := data t |}
  else Raise RuntimeError.

(** [t.transpose(1, 0)]: needs two axes; trailing axes move as blocks. *)
Definition transpose10 (t : Tensor) : result Tensor :=
  match shape t with
  | a :: b :: rest =>
      let blk := numel rest in
      Ok {| shape := b :: a :: rest;
            data := flat_map (fun j =>
                      flat_map (fun i =>
                        firstn blk (skipn ((i * b + j) * blk) (data t)))
                        (seq 0 a))
                      (seq 0 b) |}
  | _ => Raise IndexError
  end.

(** ** torch.cat *)

(** torch's legacy rule: operands of shape (0,) are ignored. *)
Definition cat_skip (t : Tensor) : bool :=
  match shape t with
  | [n] => n =? 0
  | _ => false
  end.

Definition same_except (dim : nat) (s1 s2 : list nat) : bool :=
  (length s1 =? length s2)
  && shape_eqb (firstn dim s1) (firstn dim s2)
  && shape_eqb (skipn (S dim) s1) (skipn (S dim) s2).

(** Interleave the operands: for each index of the axes before [dim], one
    chunk of every operand in turn.  A part is (chunk length, contents). *)
Fixpoint cat_data (outer : nat) (parts : list (nat * list float))
  : list float :=
  match outer with
  | 0 => []
  | S o =>
      flat_map (fun p => firstn (fst p) (snd p)) parts
      ++ cat_data o (map (fun p => (fst p, skipn (fst p) (snd p))) parts)
  end.

Definition torch_cat (ts : list Tensor) (dim : nat) : result Tensor :=
  if existsb (fun t => ndim t =? 0) ts then Raise RuntimeError
  else
    match filter (fun t => negb (cat_skip t)) ts with
    | [] =>
        match ts with
        | [] => Raise RuntimeError
        | _ :: _ => Ok {| shape := [0]; data := [] |}
        end
    | f :: rest =>
        if ndim f <=? dim then Raise IndexError
        else if forallb (fun t => same_except dim (shape f) (shape t)) rest
        then
          Ok {| shape :=
                  firstn dim (shape f)
                  ++ list_sum (map (fun t => nth dim (shape t) 0) (f :: rest))
                  :: skipn (S dim) (shape f);
                data :=
                  cat_data (numel (firstn dim (shape f)))
                    (map (fun t => (numel (skipn dim (shape t)), data t))
                         (f :: rest)) |}
        else Raise RuntimeError
    end.

(** The time row of a 3-axis tensor at batch [b], channel [c]. *)
Definition time_row (t : Tensor) (b c : nat) : list float :=
  match shape t with
  | [_; C; T] => firstn T (skipn ((b * C + c) * T) (data t))
  | _ => []
  end.

End Torch.
Import Torch.

(** A torch module seen from its caller: a function that may raise. *)
Definition Callable : Type := Tensor -> result Tensor.

(* ================================================================== *)
(** * encoder.py: visual feature extractors *)
(* ================================================================== *)

(** [torch.nn.Linear(in_features, out_features)]: acts on the last axis,
    whose length must be [in_features]; the numbers it computes are kept as
    [linear_values]. *)
Record Linear : Type := {
  in_features : nat;
  out_features : nat;
  linear_values : Tensor -> list float
}.

Definition Linear_forward (l : Linear) (x : Tensor) : result Tensor :=
  if (0 <? ndim x) && (last (shape x) 0 =? in_features l)
  then Ok {| shape := removelast (shape x) ++ [out_features l];
             data := linear_values l x |}
  else Raise RuntimeError.

(** [VISURAL_RES_NET1]: [feature_extraction] is the torchvision backbone
    (a fresh first convolution, then resnet18 without its first and last
    children), kept as a callable; [predictor] is [Linear(512, 512*1)]. *)
Record VISURAL_RES_NET1 : Type := {
  feature_extraction1 : Callable;
  predictor1 : Linear
}.

Record VISURAL_RES_NET2 : Type := {
  feature_extraction2 : Callable;
  predictor2 : Linear
}.

Definition VISURAL_RES_NET1_init (backbone : Callable)
    (weights : Tensor -> list float) : VISURAL_RES_NET1 :=
  {| feature_extraction1 := backbone;
     predictor1 := {| in_features := 512; out_features := 512 * 1;
                      linear_values := weights |} |}.

Definition VISURAL_RES_NET2_init (backbone : Callable)
    (weights : Tensor -> list float) : VISURAL_RES_NET2 :=
  {| feature_extraction2 := backbone;
     predictor2 := {| in_features := 512; out_features := 512 * 1;
                      linear_values := weights |} |}.

(** [forward] of the two extractors (the same text in both classes).
    [int(shape[1]/512)] is the quotient rounded down, [s1 / 512]. *)
Definition VISURAL_RES_NET1_forward (self : VISURAL_RES_NET1)
    (inputs : Tensor) : result Tensor :=
  f <- feature_extraction1 self inputs ;;
  let audio_feature := squeeze_last (squeeze_last f) in
  pred <- Linear_forward (predictor1 self) audio_feature ;;
  let shape_ := shape pred in
  s0 <- size_at shape_ 0 ;;
  s1 <- size_at shape_ 1 ;;
  pred <- reshape pred [s0; 512; s1 / 512] ;;
  torch_cat [pred; pred; pred; pred] 2.

Definition VISURAL_RES_NET2_forward (self : VISURAL_RES_NET2)
    (inputs : Tensor) : result Tensor :=
  f <- feature_extraction2 self inputs ;;
  let audio_feature := squeeze_last (squeeze_last f) in
  pred <- Linear_forward (predictor2 self) audio_feature ;;
  let shape_ := shape pred in
  s0 <- size_at shape_ 0 ;;
  s1 <- size_at shape_ 1 ;;
  pred <- reshape pred [s0; 512; s1 / 512] ;;
  torch_cat [pred; pred; pred; pred] 2.

(** The reshape-and-tile tail that both [forward] methods end with. *)
Definition tile4 (pred : Tensor) : result Tensor :=
  s0 <- size_at (shape pred) 0 ;;
  s1 <- size_at (shape pred) 1 ;;
  pred <- reshape pred [s0; 512; s1 / 512] ;;
  torch_cat [pred; pred; pred; pred] 2.

(* ================================================================== *)
(** * Layers imported by encoder.py *)
(* ================================================================== *)

(** A layer of [layers/conv_layer.py] or [modules/residual_unit.py] as the
    encoder uses it: [forward] is the one-shot entry point; the streaming
    entry point [inference] reads and replaces the buffer the layer object
    keeps between calls. *)
Record Layer : Type := mkLayer {
  forward : Tensor -> result Tensor;
  inference_step : Tensor -> Tensor -> result Tensor * Tensor;
  pad_buffer : Tensor
}.

(** [layer.inference(x)]: the call's outcome and the layer object after it. *)
Definition Layer_inference (l : Layer) (x : Tensor) : result Tensor * Layer :=
  let (r, b) := inference_step l (pad_buffer l) x in
  (r, {| forward := forward l;
         inference_step := inference_step l;
         pad_buffer := b |}).

(** The four classes [EncoderBlock.__init__] chooses from.  Residual units
    take (in_channels, out_channels, dilation); convolutions take
    (in_channels, out_channels, kernel_size, stride, bias). *)
Record LayerClasses : Type := {
  NonCausalResidualUnit : nat -> nat -> nat -> Layer;
  CausalResidualUnit : nat -> nat -> nat -> Layer;
  NonCausalConv1d : nat -> nat -> nat -> nat -> bool -> Layer;
  CausalConv1d : nat -> nat -> nat -> nat -> bool -> Layer
}.

(** Modelled from the spec: [check_mode] of [models/utils.py] is not among
    the sources.  Section 7: invoking a streaming entry point on a component
    constructed in non-causal mode fails immediately, at the call site, with
    a mode-mismatch error; the causal mode is the streaming one. *)
Definition check_mode (mode method : string) : result unit :=
  if String.eqb mode "causal" then Ok tt else Raise ModeMismatchError.

(* ================================================================== *)
(** * encoder.py: EncoderBlock *)
(* ================================================================== *)

Record EncoderBlock : Type := mkEncoderBlock {
  blk_mode : string;
  res_units : list Layer;
  blk_conv : Layer
}.

(** [self.num_res = len(self.res_units)], set once in [__init__]. *)
Definition num_res (self : EncoderBlock) : nat := length (res_units self).

Definition EncoderBlock_init (lib : LayerClasses)
    (in_channels out_channels stride : nat) (dilations : list nat)
    (bias : bool) (mode : string) : result EncoderBlock :=
  if String.eqb mode "noncausal" then
    Ok {| blk_mode := mode;
          res_units :=
            map (fun dilation =>
                   NonCausalResidualUnit lib in_channels in_channels dilation)
                dilations;
          blk_conv :=
            NonCausalConv1d lib in_channels out_channels (2 * stride) stride
                            bias |}
  else if String.eqb mode "causal" then
    Ok {| blk_mode := mode;
          res_units :=
            map (fun dilation =>
                   CausalResidualUnit lib in_channels in_channels dilation)
                dilations;
          blk_conv :=
            CausalConv1d lib in_channels out_channels (2 * stride) stride
                         bias |}
  else Raise NotImplementedError.

(** [for idx in range(self.num_res): x = self.res_units[idx](x)] *)
Fixpoint forward_units (units : list Layer) (x : Tensor) : result Tensor :=
  match units with
  | [] => Ok x
  | u :: rest => y <- forward u x ;; forward_units rest y
  end.

Definition EncoderBlock_forward (self : EncoderBlock) (x : Tensor)
  : result Tensor :=
  x <- forward_units (res_units self) x ;;
  forward (blk_conv self) x.

(** [for idx in range(self.num_res): x = self.res_units[idx].inference(x)].
    Units already stepped keep their new buffers when a later one raises. *)
Fixpoint inference_units (units : list Layer) (x : Tensor)
  : result Tensor * list Layer :=
  match units with
  | [] => (Ok x, [])
  | u :: rest =>
      match Layer_inference u x with
      | (Ok y, u') =>
          let (r, rest') := inference_units rest y in (r, u' :: rest')
      | (Raise e, u') => (Raise e, u' :: rest)
      end
  end.

(** [EncoderBlock.inference]; the world is the block object itself. *)
Definition EncoderBlock_inference (x : Tensor) : M EncoderBlock Tensor :=
  self <~ get ;;
  lift (check_mode (blk_mode self) "inference") ;;;
  x <~ (fun self : EncoderBlock =>
          let (r, units) := inference_units (res_units self) x in
          (r, {| blk_mode := blk_mode self;
                 res_units := units;
                 blk_conv := blk_conv self |})) ;;
  (fun self : EncoderBlock =>
     let (r, c) := Layer_inference (blk_conv self) x in
     (r, {| blk_mode := blk_mode self;
            res_units := res_units self;
            blk_conv := c |})).

(* ================================================================== *)
(** * encoder.py: Encoder *)
(* ================================================================== *)

Record Encoder : Type := mkEncoder {
  mode : string;
  conv : Layer;
  conv_combine : Layer;
  combine_conv_blocks : list EncoderBlock;
  seperate_conv_blocks_1 : list EncoderBlock;
  encode_RIR : Callable;          (* torch.nn.Sequential *)
  encode_RIR_s : Callable;        (* torch.nn.Sequential *)
  out_channels : nat;
  visual_res_net1 : VISURAL_RES_NET1;
  visual_res_net2 : VISURAL_RES_NET2
}.

(** [for i in range(self.seperate_num_blocks_speech):
       x_speech = self.seperate_conv_blocks_1[i](x_speech)] *)
Fixpoint forward_blocks (blocks : list EncoderBlock) (x : Tensor)
  : result Tensor :=
  match blocks with
  | [] => Ok x
  | b :: rest => y <- EncoderBlock_forward b x ;; forward_blocks rest y
  end.

(** The two audio branches of [forward], up to the concatenation: the
    combine convolution feeds both; the speech branch goes on through
    [conv] and the encoder blocks, the RIR branch through [encode_RIR]. *)
Definition speech_branch (self : Encoder) (x : Tensor) : result Tensor :=
  x_combine <- forward (conv_combine self) x ;;
  x_speech <- forward (conv self) x_combine ;;
  forward_blocks (seperate_conv_blocks_1 self) x_speech.

Definition rir_branch (self : Encoder) (x : Tensor) : result Tensor :=
  x_combine <- forward (conv_combine self) x ;;
  encode_RIR self x_combine.

Definition Encoder_forward (self : Encoder) (x mi ci : Tensor)
  : result (Tensor * Tensor) :=
  mi_code <- VISURAL_RES_NET1_forward (visual_res_net1 self) mi ;;
  ci_code <- VISURAL_RES_NET2_forward (visual_res_net2 self) ci ;;
  x_combine <- forward (conv_combine self) x ;;
  x_speech <- forward (conv self) x_combine ;;
  let x_rir := x_combine in
  x_speech <- forward_blocks (seperate_conv_blocks_1 self) x_speech ;;
  x_rir <- encode_RIR self x_rir ;;
  x_speech_AV <- torch_cat [x_speech; ci_code] 2 ;;
  x_rir_AV <- torch_cat [x_rir; mi_code] 2 ;;
  Ok (x_speech_AV, x_rir_AV).

(** Standard output: the label and the [torch.Size] each [print] shows. *)
Definition Stdout : Type := list (string * list nat).

Definition print (label : string) (sh : list nat) : M Stdout unit :=
  modify (fun out => out ++ [(label, sh)]).

Definition Encoder_encode (self : Encoder) (x mi ci : Tensor)
  : M Stdout (Tensor * Tensor) :=
  lift (check_mode (mode self) "encode") ;;;
  mi_code <~ lift (VISURAL_RES_NET1_forward (visual_res_net1 self) mi) ;;
  ci_code <~ lift (VISURAL_RES_NET2_forward (visual_res_net2 self) ci) ;;
  print "mi_code shape : " (shape mi_code) ;;;
  print "ci_code shape : " (shape ci_code) ;;;
  x_combine <~ lift (forward (conv_combine self) x) ;;
  x_speech <~ lift (forward (conv self) x_combine) ;;
  let x_rir := x_combine in
  x_speech <~ lift (forward_blocks (seperate_conv_blocks_1 self) x_speech) ;;
  x_rir <~ lift (encode_RIR self x_rir) ;;
  x_speech_AV <~ lift (torch_cat [x_speech; ci_code] 2) ;;
  x_rir_AV <~ lift (torch_cat [x_rir; mi_code] 2) ;;
  ret (x_speech_AV, x_rir_AV).

(** Calling a module object runs its [forward] on the positional arguments;
    [Encoder.forward] has exactly the parameters (x, mi, ci), none with a
    default, so any other number of arguments is a [TypeError]. *)
Definition Encoder_call (self : Encoder) (args : list Tensor)
  : result (Tensor * Tensor) :=
  match args with
  | [x; mi; ci] => Encoder_forward self x mi ci
  | _ => Raise TypeError
  end.

(* ================================================================== *)
(** * codecStatistic.py *)
(* ================================================================== *)

(** Modelled from the spec: the [Generator] of
    [models/autoencoder/AudioDec.py] is not among the sources; the driver
    uses five attributes of it.  Sections 2 and 4.5: a dataset item goes
    through the encoder, then through a projector and a quantizer for each
    branch.  Its [encoder] is the [Encoder] above; projectors and
    quantizers are kept as callables (a quantizer returns a triple whose
    first component is the quantized code). *)
Record Generator : Type := {
  encoder : Encoder;
  projector_speech : Callable;
  quantizer_speech : Tensor -> result (Tensor * Tensor * Tensor);
  projector_rir : Callable;
  quantizer_rir : Tensor -> result (Tensor * Tensor * Tensor)
}.

(** The attributes [sklearn.preprocessing.StandardScaler.partial_fit]
    assigns; a scaler that was never fitted has none of them. *)
Record ScalerAttrs : Type := {
  mean_ : Tensor;
  var_ : Tensor;
  scale_ : Tensor;
  n_samples_seen_ : nat
}.

Definition StandardScaler : Type := option ScalerAttrs.

(** [scaler.mean_], [scaler.scale_] *)
Definition get_mean_ (s : StandardScaler) : result Tensor :=
  match s with
  | Some a => Ok (mean_ a)
  | None => Raise AttributeError
  end.

Definition get_scale_ (s : StandardScaler) : result Tensor :=
  match s with
  | Some a => Ok (scale_ a)
  | None => Raise AttributeError
  end.

Inductive Dtype : Type := Float32 | Float64.

(** One [np.save(file, arr, allow_pickle=...)] call. *)
Record NpSave : Type := {
  npy_file : string;
  npy_dtype : Dtype;
  npy_array : Tensor;
  npy_allow_pickle : bool
}.

(** What a run leaves behind: the arrays saved and the final log line's
    utterance count. *)
Record StatWorld : Type := {
  saved : list NpSave;
  logged : list nat
}.

Definition np_save (file : string) (dt : Dtype) (arr : Tensor)
    (allow_pickle : bool) : M StatWorld unit :=
  modify (fun w =>
    {| saved := saved w ++ [{| npy_file := file; npy_dtype := dt;
                               npy_array := arr;
                               npy_allow_pickle := allow_pickle |}];
       logged := logged w |}).

Definition logging_info (idx : nat) : M StatWorld unit :=
  modify (fun w => {| saved := saved w; logged := logged w ++ [idx] |}).

(** [np.stack([a, b], axis=0)]: equal shapes, a new leading axis of 2. *)
Definition np_stack2 (a b : Tensor) : result Tensor :=
  if shape_eqb (shape a) (shape b)
  then Ok {| shape := 2 :: shape a; data := data a ++ data b |}
  else Raise ValueError.

Record StatisticMain : Type := {
  stats_path_speech : string;
  stats_path_rir : string;
  analyzer : Generator;
  dataset : list Tensor        (* the arrays the dataset yields, in order *)
}.

Section Statistic.

(** Rounding to 32-bit precision ([dtype=torch.float], [np.float32]). *)
Variable to_float32 : float -> float.

(** [StandardScaler.partial_fit(X)] of scikit-learn: from the scaler's
    attributes so far and a batch, to its new attributes. *)
Variable sk_partial_fit : StandardScaler -> Tensor -> result ScalerAttrs.

Definition astype_float32 (t : Tensor) : Tensor :=
  {| shape := shape t; data := map to_float32 (data t) |}.

Definition partial_fit (s : StandardScaler) (X : Tensor)
  : result StandardScaler :=
  a <- sk_partial_fit s X ;; Ok (Some a).

Definition audio_analysis (self : StatisticMain) (audio : Tensor)
  : result (Tensor * Tensor) :=
  let x := astype_float32 audio in
  x <- transpose10 x ;;
  let x := unsqueeze0 x in
  enc_out <- Encoder_call (encoder (analyzer self)) [x] ;;
  let (x_speech, x_rir) := enc_out in
  z_speech <- projector_speech (analyzer self) x_speech ;;
  q_speech <- quantizer_speech (analyzer self) z_speech ;;
  let zq_speech := fst (fst q_speech) in
  z_rir <- projector_rir (analyzer self) x_rir ;;
  q_rir <- quantizer_rir (analyzer self) z_rir ;;
  let zq_rir := fst (fst q_rir) in
  a <- transpose10 (squeeze0 zq_speech) ;;
  b <- transpose10 (squeeze0 zq_rir) ;;
  Ok (a, b).

(** The [for idx, x in enumerate(pbar, 1)] loop of [run]. *)
Fixpoint run_loop (self : StatisticMain) (pbar : list Tensor)
    (scaler_speech scaler_rir : StandardScaler)
  : result (StandardScaler * StandardScaler) :=
  match pbar with
  | [] => Ok (scaler_speech, scaler_rir)
  | x :: rest =>
      zq <- audio_analysis self x ;;
      let (zq_speech, zq_rir) := zq in
      scaler_speech <- partial_fit scaler_speech zq_speech ;;
      scaler_rir <- partial_fit scaler_rir zq_rir ;;
      run_loop self rest scaler_speech scaler_rir
  end.

(** [idx] is bound by the loop: reading it after zero iterations raises. *)
Definition read_idx (pbar : list Tensor) : result nat :=
  match pbar with
  | [] => Raise UnboundLocalError
  | _ :: _ => Ok (length pbar)
  end.

(** Lines 125-137 of [run]: stack, cast and save each branch's mean and
    scale. *)
Definition persist (self : StatisticMain)
    (scaler_speech scaler_rir : StandardScaler) : M StatWorld unit :=
  m <~ lift (get_mean_ scaler_speech) ;;
  s <~ lift (get_scale_ scaler_speech) ;;
  stats_speech <~ lift (np_stack2 m s) ;;
  np_save (stats_path_speech self) Float32 (astype_float32 stats_speech)
          false ;;;
  m <~ lift (get_mean_ scaler_rir) ;;
  s <~ lift (get_scale_ scaler_rir) ;;
  stats_rir <~ lift (np_stack2 m s) ;;
  np_save (stats_path_rir self) Float32 (astype_float32 stats_rir) false.

Definition run (self : StatisticMain) : M StatWorld unit :=
  let scaler_speech : StandardScaler := None in
  let scaler_rir : StandardScaler := None in
  scalers <~ lift (run_loop self (dataset self) scaler_speech scaler_rir) ;;
  let (scaler_speech, scaler_rir) := scalers in
  persist self scaler_speech scaler_rir ;;;
  idx <~ lift (read_idx (dataset self)) ;;
  logging_info idx.

End Statistic.

(* ================================================================== *)
(** * codecTest.py *)
(* ================================================================== *)

Module CodecTest.

(** The arguments of the [SingleDataset(...)] call. *)
Record SingleDataset : Type := {
  files : list string;
  query : string;
  return_utt_id : bool;
  subset_num : Z
}.

(** Python values the driver handles: what a YAML document loads to,
    the dataset object, and the objects bound at module level. *)
Inductive pyval : Type :=
| PNone
| PInt (n : Z)
| PStr (s : string)
| PList (l : list pyval)
| PDict (kvs : list (string * pyval))
| PDataset (d : SingleDataset)
| PGlobal (name : string).   (* a module-level object *)

Fixpoint assoc (kvs : list (string * pyval)) (key : string)
  : option pyval :=
  match kvs with
  | [] => None
  | (k, v) :: rest => if String.eqb k key then Some v else assoc rest key
  end.

(** [v[key]] for a string key. *)
Definition getitem (v : pyval) (key : string) : result pyval :=
  match v with
  | PDict kvs =>
      match assoc kvs key with
      | Some x => Ok x
      | None => Raise KeyError
      end
  | _ => Raise TypeError
  end.

(** An instance: its attribute dictionary.  [TestGEN.__init__]
    ([bin/test.py], not among the sources) fills it before
    [load_dataset] runs. *)
Definition Obj : Type := list (string * pyval).

Definition getattr (name : string) : M Obj pyval :=
  fun self =>
    match assoc self name with
    | Some v => (Ok v, self)
    | None => (Raise AttributeError, self)
    end.

Fixpoint update (kvs : Obj) (name : string) (v : pyval) : Obj :=
  match kvs with
  | [] => [(name, v)]
  | (k, x) :: rest =>
      if String.eqb k name then (k, v) :: rest
      else (k, x) :: update rest name v
  end.

Definition setattr (name : string) (v : pyval) : M Obj unit :=
  modify (fun self => update self name v).

Definition starts_with_slash (s : string) : bool :=
  match s with
  | String c _ => Ascii.eqb c "/"
  | EmptyString => false
  end.

Fixpoint ends_with_slash (s : string) : bool :=
  match s with
  | EmptyString => false
  | String c EmptyString => Ascii.eqb c "/"
  | String _ rest => ends_with_slash rest
  end.

(** [os.path.join(a, b)] (posixpath) on two components. *)
Definition os_path_join (a b : pyval) : result string :=
  match a, b with
  | PStr a, PStr b =>
      if starts_with_slash b then Ok b
      else if String.eqb a "" || ends_with_slash a then Ok (a ++ b)%string
      else Ok (a ++ "/" ++ b)%string
  | _, _ => Raise TypeError
  end.

(** Names bound at module level in [codecTest.py]: its imports, the
    class and [main].  No builtin is called [data_path]. *)
Definition module_globals : list string :=
  ["os"; "torch"; "logging"; "argparse"; "sf"; "SingleDataset"; "cp";
   "fftconvolve"; "generator_audiodec"; "generator_hifigan"; "TestGEN";
   "TestMain"; "main"]%string.

(** Reading a name inside a function: its local variables first, then
    the module's globals. *)
Definition read_name (locals : list (string * pyval)) (name : string)
  : result pyval :=
  match assoc locals name with
  | Some v => Ok v
  | None =>
      if existsb (String.eqb name) module_globals then Ok (PGlobal name)
      else Raise NameError
  end.

(** [os.path.exists(p)] over a file system given by [path_exists]. *)
Definition os_path_exists (path_exists : string -> bool) (p : pyval)
  : result bool :=
  match p with
  | PStr s => Ok (path_exists s)
  | _ => Raise TypeError
  end.

(** [self.config['data']['subset'][subset]] *)
Definition config_subset (subset : string) : M Obj pyval :=
  config <~ getattr "config" ;;
  d <~ lift (getitem config "data") ;;
  s <~ lift (getitem d "subset") ;;
  lift (getitem s subset).

(** One directory assignment of [load_dataset], e.g.
    [os.path.join(self.config['data']['subset'][subset],
                  self.data_reverb_path)]. *)
Definition dir_step (subset attr : string) : M Obj string :=
  a <~ config_subset subset ;;
  b <~ getattr attr ;;
  lift (os_path_join a b).

(** [TestMain.load_dataset].  The assignment of [data_path] is commented
    out in the source, so the local variables at the [assert] are the
    parameters and the three directories.  Assertions are executed (the
    interpreter runs without [-O]). *)
Definition load_dataset (path_exists : string -> bool)
    (subset : string) (subset_num : Z) : M Obj unit :=
  a <~ config_subset subset ;;
  b <~ getattr "data_reverb_path" ;;
  audio_rs_dir <~ lift (os_path_join a b) ;;
  a <~ config_subset subset ;;
  b <~ getattr "data_material_path" ;;
  audio_material_dir <~ lift (os_path_join a b) ;;
  a <~ config_subset subset ;;
  b <~ getattr "data_image_path" ;;
  audio_image_dir <~ lift (os_path_join a b) ;;
  let locals :=
    [("subset", PStr subset); ("subset_num", PInt subset_num);
     ("audio_rs_dir", PStr audio_rs_dir);
     ("audio_material_dir", PStr audio_material_dir);
     ("audio_image_dir", PStr audio_image_dir)]%string in
  (* assert os.path.exists(data_path), f"{data_path} does not exist!" *)
  lift (read_name locals "os") ;;;
  data_path <~ lift (read_name locals "data_path") ;;
  ok <~ lift (os_path_exists path_exists data_path) ;;
  (if ok : bool then ret tt else throw AssertionError) ;;;
  lift (read_name locals "SingleDataset") ;;;
  setattr "dataset"
    (PDataset {| files := [audio_rs_dir; audio_material_dir;
                           audio_image_dir];
                 query := "*.wav";
                 return_utt_id := true;
                 subset_num := subset_num |}).

End CodecTest.

(* ================================================================== *)
(** * The layer classes, modelled from the spec *)
(* ================================================================== *)

Module SpecLayers.

(** Modelled from the spec: the convolution classes of
    [layers/conv_layer.py] are not among the sources.  Sections 2 and 4.2:
    a 1-D convolution over the time axis of a (batch, channel, time)
    tensor, sliding a window of [kernel_size] samples by [stride].  How
    much zero padding a class puts on either side is not stated; it stays
    a field. *)
Record Conv1d : Type := {
  c_in : nat;
  c_out : nat;
  kernel_size : nat;
  stride : nat;
  pad_left : nat;
  pad_right : nat;
  (* output channel, one window per input channel *)
  kernel_fn : nat -> list (list float) -> float
}.

(** The windows of [k] samples at offsets 0, s, 2s, ... that fit in [l]. *)
Fixpoint windows (fuel k s : nat) (l : list float) : list (list float) :=
  match fuel with
  | 0 => []
  | S fuel' =>
      if length l <? k then []
      else firstn k l :: windows fuel' k s (skipn s l)
  end.

Definition out_len (k s n : nat) : nat :=
  if n <? k then 0 else (n - k) / s + 1.

Definition padded_row (cv : Conv1d) (x : Tensor) (b c : nat) : list float :=
  repeat PrimFloat.zero (pad_left cv) ++ time_row x b c
  ++ repeat PrimFloat.zero (pad_right cv).

Definition Conv1d_forward (cv : Conv1d) (x : Tensor) : result Tensor :=
  match shape x with
  | [B; C; T] =>
      let n := pad_left cv + T + pad_right cv in
      if negb (C =? c_in cv) || (stride cv =? 0) || (kernel_size cv =? 0)
         || (n <? kernel_size cv)
      then Raise RuntimeError
      else
        let L := out_len (kernel_size cv) (stride cv) n in
        Ok {| shape := [B; c_out cv; L];
              data :=
                flat_map (fun b =>
                  flat_map (fun o =>
                    let wins :=
                      map (fun c =>
                             windows (S n) (kernel_size cv) (stride cv)
                                     (padded_row cv x b c))
                          (seq 0 C) in
                    map (fun j =>
                           kernel_fn cv o (map (fun w => nth j w []) wins))
                        (seq 0 L))
                    (seq 0 (c_out cv)))
                  (seq 0 B) |}
  | _ => Raise RuntimeError
  end.

(** Modelled from the spec: the residual-unit classes of
    [modules/residual_unit.py] are not among the sources.  Section 4.1:
    given a (batch, C, T) input the unit returns an output of identical
    shape; what it computes is kept as [values]. *)
Definition ResidualUnit_forward (channels : nat)
    (values : Tensor -> list float) (x : Tensor) : result Tensor :=
  match shape x with
  | [B; C; T] =>
      if C =? channels then Ok {| shape := shape x; data := values x |}
      else Raise RuntimeError
  | _ => Raise RuntimeError
  end.

(** What the spec leaves open about the four classes. *)
Record Params : Type := {
  (* mode and kernel size to (left, right) zero padding *)
  padding : string -> nat -> nat * nat;
  conv_kernel : nat -> list (list float) -> float;
  unit_values : nat -> Tensor -> list float;       (* by dilation *)
  streaming : Tensor -> Tensor -> result Tensor * Tensor;
  initial_buffer : Tensor
}.

Definition conv_class (p : Params) (mode : string)
    (cin cout k s : nat) (bias : bool) : Layer :=
  {| forward :=
       Conv1d_forward
         {| c_in := cin; c_out := cout; kernel_size := k; stride := s;
            pad_left := fst (padding p mode k);
            pad_right := snd (padding p mode k);
            kernel_fn := conv_kernel p |};
     inference_step := streaming p;
     pad_buffer := initial_buffer p |}.

Definition unit_class (p : Params) (cin cout dilation : nat) : Layer :=
  {| forward := ResidualUnit_forward cin (unit_values p dilation);
     inference_step := streaming p;
     pad_buffer := initial_buffer p |}.

Definition classes (p : Params) : LayerClasses :=
  {| NonCausalResidualUnit := unit_class p;
     CausalResidualUnit := unit_class p;
     NonCausalConv1d := conv_class p "noncausal";
     CausalConv1d := conv_class p "causal" |}.

End SpecLayers.

(** The exception [audio_analysis] ends with on a given array: the
    transpose needs two axes; past it, the encoder is called with one
    argument. *)
Definition analysis_exn (audio : Tensor) : exn :=
  if 2 <=? ndim audio then TypeError else IndexError.

(* ================================================================== *)
(** * Concrete instances *)
(* ================================================================== *)

Module Examples.
Import SpecLayers CodecTest.

Definition constant (sh : list nat) (v : float) : Tensor :=
  {| shape := sh; data := repeat v (numel sh) |}.

(** A backbone stand-in: pooled (B, 512, 1, 1) features for an image
    batch, an error for anything else. *)
Definition backbone (v : float) : Callable :=
  fun x =>
    match shape x with
    | [B; 3; _; _] => Ok (constant [B; 512; 1; 1] v)
    | _ => Raise RuntimeError
    end.

Definition net1 : VISURAL_RES_NET1 :=
  VISURAL_RES_NET1_init (backbone PrimFloat.one)
    (fun x => repeat PrimFloat.one (numel (shape x))).

Definition net2 : VISURAL_RES_NET2 :=
  VISURAL_RES_NET2_init (backbone PrimFloat.two)
    (fun x => repeat PrimFloat.two (numel (shape x))).

(** Layer classes with a left padding of [kernel_size - 1] in causal
    mode and [(kernel_size - 1) / 2] on both sides otherwise; kernels add
    up the first sample of each window. *)
Definition params : Params :=
  {| padding := fun mode k =>
       if String.eqb mode "causal" then (k - 1, 0)
       else ((k - 1) / 2, (k - 1) / 2);
     conv_kernel := fun _ wins =>
       fold_right (fun w acc => PrimFloat.add (hd PrimFloat.zero w) acc)
                  PrimFloat.zero wins;
     unit_values := fun _ x => data x;
     streaming := fun buf x => (Ok x, x);
     initial_buffer := constant [1; 1; 0] PrimFloat.zero |}.

Definition causal_block : EncoderBlock :=
  {| blk_mode := "causal";
     res_units := map (CausalResidualUnit (classes params) 1 1) [1; 3; 9];
     blk_conv := CausalConv1d (classes params) 1 2 (2 * 3) 3 true |}.

Definition noncausal_block : EncoderBlock :=
  {| blk_mode := "noncausal";
     res_units :=
       map (NonCausalResidualUnit (classes params) 1 1) [1; 3; 9];
     blk_conv := NonCausalConv1d (classes params) 1 2 (2 * 3) 3 true |}.

(** A layer that ignores its input and returns a constant tensor. *)
Definition const_layer (sh : list nat) (v : float) : Layer :=
  {| forward := fun _ => Ok (constant sh v);
     inference_step := fun buf _ => (Ok (constant sh v), buf);
     pad_buffer := constant [1; 1; 0] PrimFloat.zero |}.

Definition encoder_in (m : string) : Encoder :=
  {| mode := m;
     conv := const_layer [1; 512; 2] PrimFloat.zero;
     conv_combine := const_layer [1; 1; 6] PrimFloat.zero;
     combine_conv_blocks := [];
     seperate_conv_blocks_1 := [];
     encode_RIR := fun _ => Ok (constant [1; 512; 1] PrimFloat.zero);
     encode_RIR_s := fun _ => Raise RuntimeError;
     out_channels := 512;
     visual_res_net1 := net1;
     visual_res_net2 := net2 |}.

Definition audio : Tensor := constant [1; 1; 6] PrimFloat.one.
Definition image : Tensor := constant [1; 3; 2; 2] PrimFloat.one.

(** A batch of one mono signal without samples. *)
Definition empty_audio : Tensor := constant [1; 1; 0] PrimFloat.one.

(** The non-causal block of stride 1: its convolution has a window of 2
    and, with [(2 - 1) / 2 = 0] zeros on either side, no padding. *)
Definition unit_stride_block : EncoderBlock :=
  {| blk_mode := "noncausal";
     res_units :=
       map (NonCausalResidualUnit (classes params) 1 1) [1; 3; 9];
     blk_conv := NonCausalConv1d (classes params) 1 2 (2 * 1) 1 true |}.

(** What [forward] returns on these inputs. *)
Definition streams : result (Tensor * Tensor) :=
  Eval vm_compute in Encoder_forward (encoder_in "causal") audio image image.

(** A test-driver object whose configuration knows the subset "test". *)
Definition test_main : Obj :=
  [("config",
    PDict [("data", PDict [("subset", PDict [("test", PStr "clean")])])]);
   ("data_reverb_path", PStr "reverb");
   ("data_material_path", PStr "material");
   ("data_image_path", PStr "image")]%string.

End Examples.

(* ================================================================== *)
(** * encoder.py: Encoder.__init__ *)
(* ================================================================== *)

(** [t[i]] on a tuple. *)
Definition tuple_at (t : list nat) (i : nat) : result nat :=
  match nth_error t i with
  | Some n => Ok n
  | None => Raise IndexError
  end.

(** [assert cond] *)
Definition py_assert (cond : bool) : result unit :=
  if cond then Ok tt else Raise AssertionError.

(** The default [dilations=(1, 3, 9)] of [EncoderBlock.__init__], which
    [Encoder.__init__] does not override. *)
Definition default_dilations : list nat := [1; 3; 9].

(** What [Encoder.__init__] builds from torch and torchvision alone: the
    two [torch.nn.Sequential] stacks (from the channel counts they are
    given) and the two visual extractors. *)
Record TorchParts : Type := {
  make_encode_RIR : nat -> nat -> Callable;    (* input_channels, in_channels *)
  make_encode_RIR_s : nat -> Callable;         (* in_channels *)
  make_visual_res_net1 : VISURAL_RES_NET1;
  make_visual_res_net2 : VISURAL_RES_NET2
}.

(** One of the two block-building loops of [__init__]:
    [for idx, stride in enumerate(strides):
         out_channels = encode_channels * ratios[idx]
         blocks += [EncoderBlock(in_channels, out_channels, stride,
                                 bias=bias, mode=self.mode)]
         in_channels = out_channels]
    It returns the blocks and the loop variables [in_channels] and
    [out_channels] as the loop leaves them; [out_channels] may still be
    unassigned. *)
Fixpoint init_blocks (lib : LayerClasses) (encode_channels : nat)
    (ratios : list nat) (bias : bool) (mode : string)
    (idx in_channels : nat) (out_channels : option nat)
    (strides : list nat)
  : result (list EncoderBlock * nat * option nat) :=
  match strides with
  | [] => Ok ([], in_channels, out_channels)
  | stride :: rest =>
      r <- tuple_at ratios idx ;;
      let out_channels := encode_channels * r in
      b <- EncoderBlock_init lib in_channels out_channels stride
             default_dilations bias mode ;;
      t <- init_blocks lib encode_channels ratios bias mode (S idx)
             out_channels (Some out_channels) rest ;;
      Ok (b :: fst (fst t), snd (fst t), snd t)
  end.

Definition Encoder_init (lib : LayerClasses) (parts : TorchParts)
    (input_channels encode_channels : nat)
    (combine_channel_ratios seperate_channel_ratios_speech
     seperate_channel_ratios_rir combine_strides seperate_strides_speech
     seperate_strides_rir : list nat)
    (kernel_size : nat) (bias : bool) (mode : string) : result Encoder :=
  _ <- py_assert (length combine_channel_ratios =? length combine_strides) ;;
  _ <- py_assert (length seperate_channel_ratios_speech
                  =? length seperate_strides_speech) ;;
  _ <- py_assert (length seperate_channel_ratios_rir
                  =? length seperate_strides_rir) ;;
  Conv1d <- (if String.eqb mode "noncausal" then Ok (NonCausalConv1d lib)
             else if String.eqb mode "causal" then Ok (CausalConv1d lib)
             else Raise NotImplementedError) ;;
  let conv := Conv1d input_channels encode_channels kernel_size 1 false in
  let conv_combine := Conv1d input_channels input_channels 3 1 false in
  let in_channels := encode_channels in
  let encode_RIR := make_encode_RIR parts input_channels in_channels in
  let encode_RIR_s := make_encode_RIR_s parts in_channels in
  c <- init_blocks lib encode_channels combine_channel_ratios bias mode
         0 in_channels None combine_strides ;;
  let combine_conv_blocks := fst (fst c) in
  let seperate_in_channels := snd (fst c) in
  s <- init_blocks lib encode_channels seperate_channel_ratios_speech bias
         mode 0 seperate_in_channels (snd c) seperate_strides_speech ;;
  let seperate_conv_blocks_1 := fst (fst s) in
  out_channels <- match snd s with
                  | Some o => Ok o
                  | None => Raise UnboundLocalError
                  end ;;
  Ok {| mode := mode;
        conv := conv;
        conv_combine := conv_combine;
        combine_conv_blocks := combine_conv_blocks;
        seperate_conv_blocks_1 := seperate_conv_blocks_1;
        encode_RIR := encode_RIR;
        encode_RIR_s := encode_RIR_s;
        out_channels := out_channels;
        visual_res_net1 := make_visual_res_net1 parts;
        visual_res_net2 := make_visual_res_net2 parts |}.

(** The cumulative stride of a tuple of strides. *)
Definition product (l : list nat) : nat := fold_right Nat.mul 1 l.

(** [Encoder(input_channels, encode_channels)] with every other parameter
    at its default. *)
Definition Encoder_init_defaults (lib : LayerClasses) (parts : TorchParts)
    (input_channels encode_channels : nat) : result Encoder :=
  Encoder_init lib parts input_channels encode_channels
    [2; 4] [8; 16; 32] [8; 8; 16; 32] [2; 2] [3; 5; 5] [2; 3; 5; 5; 5]
    7 true "causal".

(* ================================================================== *)
(** * encoder.py: the torch stacks built by Encoder.__init__ *)
(* ================================================================== *)

Module TorchNN.

(** [torch.nn.Conv1d(in, out, kernel_size, stride, padding, bias=False)]:
    zero padding of [padding] samples on both sides and the sliding-window
    arithmetic of [SpecLayers.Conv1d_forward]; a 2-axis input is an
    unbatched (C, T) sequence and comes back without a batch axis. *)
Definition Conv1d (c_in c_out kernel_size stride padding : nat)
    (kernel : nat -> list (list float) -> float) : Callable :=
  let cv := {| SpecLayers.c_in := c_in; SpecLayers.c_out := c_out;
               SpecLayers.kernel_size := kernel_size;
               SpecLayers.stride := stride;
               SpecLayers.pad_left := padding;
               SpecLayers.pad_right := padding;
               SpecLayers.kernel_fn := kernel |} in
  fun x =>
    match shape x with
    | [_; _] =>
        y <- SpecLayers.Conv1d_forward cv (unsqueeze0 x) ;;
        Ok {| shape := tl (shape y); data := data y |}
    | _ => SpecLayers.Conv1d_forward cv x
    end.

(** [torch.nn.LeakyReLU(0.2, inplace=True)]: elementwise, any shape.
    [leaky] is the scalar function. *)
Definition LeakyReLU (leaky : float -> float) (x : Tensor) : Tensor :=
  {| shape := shape x; data := map leaky (data x) |}.

(** [torch.nn.BatchNorm1d(num_features)] in evaluation mode (the drivers
    call [.eval()] on the model): a fixed map per channel, on (N, C) or
    (N, C, L) inputs whose C is [num_features]. *)
Definition BatchNorm1d (num_features : nat) (norm : nat -> float -> float)
  : Callable :=
  fun x =>
    match shape x with
    | [_; C] | [_; C; _] =>
        if C =? num_features then
          let L := match shape x with [_; _; L] => L | _ => 1 end in
          Ok {| shape := shape x;
                data := map (fun iv => norm ((fst iv / L) mod C) (snd iv))
                            (combine (seq 0 (length (data x))) (data x)) |}
        else Raise RuntimeError
    | _ => Raise ValueError
    end.

(** The numbers the layers of the two stacks compute with. *)
Record Weights : Type := {
  kernel1 : nat -> list (list float) -> float;
  kernel2 : nat -> list (list float) -> float;
  kernel3 : nat -> list (list float) -> float;
  norm2 : nat -> float -> float;
  norm3 : nat -> float -> float;
  leaky : float -> float
}.

(** [self.encode_RIR] (lines 192-203); 14401 = 144 * 100 + 1 and
    7200 = 72 * 100. *)
Definition encode_RIR_stack (w : Weights) (input_channels in_channels : nat)
  : Callable :=
  fun x =>
    x <- Conv1d input_channels (16 * in_channels) (144 * 100 + 1) 225
                (72 * 100) (kernel1 w) x ;;
    let x := LeakyReLU (leaky w) x in
    x <- Conv1d (16 * in_channels) (24 * in_channels) 41 2 20 (kernel2 w) x ;;
    x <- BatchNorm1d (24 * in_channels) (norm2 w) x ;;
    let x := LeakyReLU (leaky w) x in
    x <- Conv1d (24 * in_channels) (32 * in_channels) 41 2 20 (kernel3 w) x ;;
    x <- BatchNorm1d (32 * in_channels) (norm3 w) x ;;
    Ok (LeakyReLU (leaky w) x).

(** [self.encode_RIR_s] (lines 205-213), which [forward] does not use. *)
Definition encode_RIR_s_stack (w : Weights) (in_channels : nat) : Callable :=
  fun x =>
    x <- Conv1d in_channels (16 * in_channels) (96 * 100) 459 (48 * 100)
                (kernel1 w) x ;;
    let x := LeakyReLU (leaky w) x in
    x <- Conv1d (16 * in_channels) (32 * in_channels) 41 2 20 (kernel2 w) x ;;
    x <- BatchNorm1d (32 * in_channels) (norm2 w) x ;;
    Ok (LeakyReLU (leaky w) x).

(** The torch-built parts of an encoder, given the two image backbones
    and the weights. *)
Definition parts (w_rir w_rir_s : Weights)
    (backbone1 backbone2 : Callable)
    (linear1 linear2 : Tensor -> list float) : TorchParts :=
  {| make_encode_RIR := encode_RIR_stack w_rir;
     make_encode_RIR_s := encode_RIR_s_stack w_rir_s;
     make_visual_res_net1 := VISURAL_RES_NET1_init backbone1 linear1;
     make_visual_res_net2 := VISURAL_RES_NET2_init backbone2 linear2 |}.

End TorchNN.

(* ================================================================== *)
(** * codecTest.py: encode, decode and the model loaders *)
(* ================================================================== *)

Module TestDriver.
Import CodecTest.

(** [t.unsqueeze(1)]: needs one axis in front of the new one. *)
Definition unsqueeze1 (t : Tensor) : result Tensor :=
  match shape t with
  | a :: rest => Ok {| shape := a :: 1 :: rest; data := data t |}
  | [] => Raise IndexError
  end.

(** Modelled from the spec: the decoder side of the [Generator] of
    [models/autoencoder/AudioDec.py], which is not among the sources.
    Section 4.6: each branch is decoded independently. *)
Record DecoderModel : Type := {
  decoder_speech : Callable;
  decoder_rir : Callable
}.

(** The attributes of a [TestMain] that [encode] and [decode] read. *)
Record TestMain : Type := {
  self_encoder : Generator;
  self_decoder : DecoderModel;
  multi_channel : bool;
  decoder_type : pyval
}.

(** [x in ['a', 'b']] for a value read from a configuration. *)
Definition py_in (v : pyval) (names : list string) : bool :=
  match v with
  | PStr s => existsb (String.eqb s) names
  | _ => false
  end.

Section Encode.

Variable to_float32 : float -> float.

Definition encode (self : TestMain) (audio : Tensor)
  : result (Tensor * Tensor) :=
  let x := astype_float32 to_float32 audio in
  x <- (if multi_channel self
        then (x <- transpose10 x ;; Ok (unsqueeze0 x))
        else (x <- transpose10 x ;; unsqueeze1 x)) ;;
  enc_out <- Encoder_call (encoder (self_encoder self)) [x] ;;
  let (x_speech, x_rir) := enc_out in
  z_speech <- projector_speech (self_encoder self) x_speech ;;
  q_speech <- quantizer_speech (self_encoder self) z_speech ;;
  let zq_speech := fst (fst q_speech) in
  z_rir <- projector_rir (self_encoder self) x_rir ;;
  q_rir <- quantizer_rir (self_encoder self) z_rir ;;
  let zq_rir := fst (fst q_rir) in
  Ok (zq_speech, zq_rir).

End Encode.

Definition decode (self : TestMain) (zq_speech zq_rir : Tensor)
  : result (Tensor * Tensor) :=
  if py_in (decoder_type self) ["HiFiGAN"; "UnivNet"]%string then
    y_speech <- decoder_speech (self_decoder self) zq_speech ;;
    y_rir <- decoder_rir (self_decoder self) zq_rir ;;
    Ok (y_speech, y_rir)
  else
    y_speech <- decoder_speech (self_decoder self) zq_speech ;;
    y_rir <- decoder_rir (self_decoder self) zq_rir ;;
    Ok (y_speech, y_rir).

(** [d.get(key, default)] *)
Definition dict_get (d : pyval) (key : string) (default : pyval)
  : result pyval :=
  match d with
  | PDict kvs =>
      match assoc kvs key with
      | Some v => Ok v
      | None => Ok default
      end
  | _ => Raise AttributeError
  end.

(** [self.encoder_type = self.encoder_config.get('model_type',
    'symAudioDec')], and the same line for the decoder and, in
    [codecStatistic.py], for the analyzer. *)
Definition model_type_of (config : pyval) : result pyval :=
  dict_get config "model_type" (PStr "symAudioDec").

(** Building a model and filling it from a checkpoint.  [construct] is
    the class call [generator_audiodec( **params )].  The two calls that
    follow work on the object in place: [load_state_dict(torch.load(
    checkpoint)...)] copies parameters into it and may raise part-way,
    [.eval().to(device)] returns the module it was called on.  Each gives
    its outcome together with the object as the call leaves it. *)
Record Loader (G : Type) : Type := {
  construct : result G;
  load_state_dict : string -> G -> result unit * G;
  eval_to_device : G -> result unit * G
}.

(** A method call on the object an attribute refers to: the attribute
    sees what the call did to the object, also when the call raises. *)
Definition in_place {G : Type} (method : G -> result unit * G)
  : M (option G) unit :=
  fun attr =>
    match attr with
    | Some g => let (r, g') := method g in (r, Some g')
    | None => (Raise AttributeError, None)
    end.

(** [load_encoder], [load_decoder] and [StatisticMain.load_analyzer]: the
    same text on three attributes.  The world is the attribute they
    assign ([None] before the first assignment). *)
Definition load_model {G : Type} (model_type : pyval) (checkpoint : string)
    (loader : Loader G) : M (option G) unit :=
  (if py_in model_type ["symAudioDec"; "symAudioDecUniv"]%string
   then ret tt else throw NotImplementedError) ;;;
  g <~ lift (construct loader) ;;
  modify (fun _ => Some g) ;;;
  in_place (load_state_dict loader checkpoint) ;;;
  in_place (eval_to_device loader).

Definition load_encoder := @load_model Generator.
Definition load_decoder := @load_model DecoderModel.
Definition load_analyzer := @load_model Generator.

End TestDriver.

(* ================================================================== *)
(** * codecStatistic.py: load_dataset *)
(* ================================================================== *)

Module StatDriver.
Import CodecTest.

(** [self.config['data'][key]] *)
Definition config_data (key : string) : M Obj pyval :=
  config <~ getattr "config" ;;
  d <~ lift (getitem config "data") ;;
  lift (getitem d key).

(** [StatisticMain.load_dataset]: three directories are computed, the
    dataset is built over the first one alone. *)
Definition load_dataset (subset : string) (subset_num : Z) : M Obj unit :=
  a <~ config_data "reverb_path" ;;
  b <~ config_subset subset ;;
  audio_rs_dir <~ lift (os_path_join a b) ;;
  a <~ config_data "clean_path" ;;
  b <~ config_subset subset ;;
  audio_cs_dir <~ lift (os_path_join a b) ;;
  audio_rir_dir <~ config_data "rir_path" ;;
  setattr "dataset"
    (PDataset {| files := [audio_rs_dir];
                 query := "*.wav";
                 return_utt_id := false;
                 subset_num := subset_num |}).

End StatDriver.

(* ================================================================== *)
(** * Paths: _load_config and initial_folder *)
(* ================================================================== *)

Module Paths.
Import CodecTest.

Fixpoint has_char (c : ascii) (s : string) : bool :=
  match s with
  | EmptyString => false
  | String a r => Ascii.eqb a c || has_char c r
  end.

(** [s[s.rfind(c)+1:]]; for a one-character separator this is also
    [s.split(c)[-1]]. *)
Fixpoint after_last (c : ascii) (s : string) : string :=
  match s with
  | EmptyString => EmptyString
  | String a r =>
      if has_char c r then after_last c r
      else if Ascii.eqb a c then r else String a r
  end.

(** [s[:s.rfind(c)+1]] *)
Fixpoint upto_last (c : ascii) (s : string) : string :=
  match s with
  | EmptyString => EmptyString
  | String a r =>
      if has_char c r then String a (upto_last c r)
      else if Ascii.eqb a c then String a EmptyString else EmptyString
  end.

(** [s.rstrip(c)] *)
Fixpoint rstrip (c : ascii) (s : string) : string :=
  match s with
  | EmptyString => EmptyString
  | String a r =>
      match rstrip c r with
      | EmptyString =>
          if Ascii.eqb a c then EmptyString else String a EmptyString
      | r' => String a r'
      end
  end.

Fixpoint all_char (c : ascii) (s : string) : bool :=
  match s with
  | EmptyString => true
  | String a r => Ascii.eqb a c && all_char c r
  end.

(** [os.path.basename] and [os.path.dirname] of posixpath. *)
Definition basename (p : string) : string := after_last "/" p.

Definition dirname (p : string) : string :=
  let head := upto_last "/" p in
  if negb (String.eqb head "") && negb (all_char "/" head)
  then rstrip "/" head
  else head.

(** [s.split(sep)[0]] for a non-empty separator: what precedes its first
    occurrence, the whole string when there is none. *)
Fixpoint before_first (sep s : string) : string :=
  match s with
  | EmptyString => EmptyString
  | String a r =>
      if String.prefix sep s then EmptyString
      else String a (before_first sep r)
  end.

(** [os.fspath] of an attribute that must be a path string. *)
Definition fspath (v : pyval) : result string :=
  match v with
  | PStr s => Ok s
  | _ => Raise TypeError
  end.

(** [_load_config] of both drivers; [read_yaml] stands for opening the
    file and [yaml.load]. *)
Definition config_path (checkpoint config_name : string) : result string :=
  os_path_join (PStr (dirname checkpoint)) (PStr config_name).

Definition load_config (read_yaml : string -> result pyval)
    (checkpoint : string) : result pyval :=
  config_path_ <- config_path checkpoint "config.yml" ;;
  read_yaml config_path_.

(** [os.path.dirname(ckpt).split('/')[-1]] *)
Definition model_name (checkpoint : string) : string :=
  after_last "/" (dirname checkpoint).

(** [os.path.basename(ckpt).split('steps')[0].split('-')[-1]] *)
Definition step_tag (checkpoint : string) : string :=
  after_last "-" (before_first "steps" (basename checkpoint)).

(** The world of [initial_folder]: the object and the paths
    [os.makedirs] was called on. *)
Record World : Type := {
  self : Obj;
  made : list string
}.

Definition on_self {A} (m : M Obj A) : M World A :=
  fun w => let (r, s) := m (self w) in (r, {| self := s; made := made w |}).

(** [os.makedirs(path, exist_ok=True)].  The call is recorded; whether
    it returns or raises ([OSError]: a component of the path is a file,
    the parent is not writable) is the file system's answer,
    [os_makedirs]. *)
Definition makedirs (os_makedirs : string -> result unit) (path : string)
  : M World unit :=
  modify (fun w => {| self := self w; made := made w ++ [path] |}) ;;;
  lift (os_makedirs path).

(** [TestMain.initial_folder]; [path_exists] is [os.path.exists]. *)
Definition initial_folder (path_exists : string -> bool)
    (os_makedirs : string -> result unit)
    (subset output_name : string) : M World unit :=
  e <~ on_self (getattr "encoder_checkpoint") ;;
  e <~ lift (fspath e) ;;
  let encoder := model_name e in
  d <~ on_self (getattr "decoder_checkpoint") ;;
  d <~ lift (fspath d) ;;
  let decoder := model_name d in
  e' <~ on_self (getattr "encoder_checkpoint") ;;
  e' <~ lift (fspath e') ;;
  let encoder_checkpoint := step_tag e' in
  d' <~ on_self (getattr "decoder_checkpoint") ;;
  d' <~ lift (fspath d') ;;
  let decoder_checkpoint := step_tag d' in
  let testdir :=
    (encoder ++ "-" ++ decoder ++ "_" ++ encoder_checkpoint ++ "-"
     ++ decoder_checkpoint)%string in
  c <~ on_self (getattr "encoder_config") ;;
  c <~ lift (getitem c "data") ;;
  c <~ lift (getitem c "subset") ;;
  setdir <~ lift (getitem c subset) ;;
  p <~ lift (os_path_join (PStr output_name) (PStr testdir)) ;;
  outdir <~ lift (os_path_join (PStr p) setdir) ;;
  on_self (setattr "outdir" (PStr outdir)) ;;;
  if path_exists outdir then ret tt else makedirs os_makedirs outdir.

End Paths.

(* ================================================================== *)
(** * Further concrete instances *)
(* ================================================================== *)

Module MoreExamples.
Import SpecLayers CodecTest TestDriver Paths.

Definition ones (x : Tensor) : list float :=
  repeat PrimFloat.one (numel (shape x)).

Definition weights : TorchNN.Weights :=
  {| TorchNN.kernel1 := fun _ _ => PrimFloat.zero;
     TorchNN.kernel2 := fun _ _ => PrimFloat.zero;
     TorchNN.kernel3 := fun _ _ => PrimFloat.zero;
     TorchNN.norm2 := fun _ v => v;
     TorchNN.norm3 := fun _ v => v;
     TorchNN.leaky := fun v => v |}.

Definition parts : TorchParts :=
  TorchNN.parts weights weights
    (Examples.backbone PrimFloat.one) (Examples.backbone PrimFloat.two)
    ones ones.

(** A causal encoder without combine blocks: 16 encode channels, speech
    strides (3, 5, 5) with ratios (8, 16, 32). *)
Definition built : result Encoder :=
  Encoder_init (classes Examples.params) parts 1 16
    [] [8; 16; 32] [8; 8; 16; 32; 32] [] [3; 5; 5] [2; 3; 5; 5; 5]
    7 true "causal".


Definition audio75 : Tensor := Examples.constant [1; 1; 75] PrimFloat.one.


Definition stat_data (with_rir : bool) : list (string * pyval) :=
  [("reverb_path", PStr "data/reverb"); ("clean_path", PStr "data/clean");
   ("subset", PDict [("train", PStr "train")])]%string
  ++ (if with_rir then [("rir_path", PStr "data/rir")]%string else []).

Definition stat_main (with_rir : bool) : Obj :=
  [("config", PDict [("data", PDict (stat_data with_rir))])]%string.

Definition identity_decoder : DecoderModel :=
  {| decoder_speech := fun x => Ok x; decoder_rir := fun x => Ok x |}.

Definition good_checkpoint : Loader DecoderModel :=
  {| construct := Ok identity_decoder;
     load_state_dict := fun _ g => (Ok tt, g);
     eval_to_device := fun g => (Ok tt, g) |}.

(** A file system on which no directory can be created. *)
Definition read_only (path : string) : result unit := Raise OSError.

Definition folder_world : World :=
  {| self :=
       [("encoder_checkpoint",
         PStr "exp/autoencoder/symAD_a/checkpoint-200000steps.pkl");
        ("decoder_checkpoint",
         PStr "exp/autoencoder/symAD_b/checkpoint-500000steps.pkl");
        ("encoder_config",
         PDict [("data", PDict [("subset",
                                 PDict [("test", PStr "test")])])])]%string;
     made := [] |}.

End MoreExamples.

(* ================================================================== *)
(** * Properties: tensors *)
(* ================================================================== *)

Section TensorFacts.

Lemma numel_app (s1 s2 : list nat) :
  numel (s1 ++ s2) = numel s1 * numel s2.
Proof.
  induction s1 as [|a s1 IH]; simpl.
  - lia.
  - rewrite IH. lia.
Qed.

Lemma shape_eqb_refl (s : list nat) : shape_eqb s s = true.
Proof.
  unfold shape_eqb. destruct (list_eq_dec Nat.eq_dec s s); congruence.
Qed.

Lemma shape_eqb_eq (s1 s2 : list nat) : shape_eqb s1 s2 = true -> s1 = s2.
Proof.
  unfold shape_eqb. destruct (list_eq_dec Nat.eq_dec s1 s2); congruence.
Qed.

End TensorFacts.

(* ================================================================== *)
(** * Properties: the spec-modelled convolution *)
(* ================================================================== *)

Section WindowFacts.
Import SpecLayers.

(** With enough fuel the windows enumerated are as many as [out_len]
    says. *)
Lemma windows_length (k s : nat) :
  0 < k -> 0 < s ->
  forall fuel l, length l < fuel ->
    length (windows fuel k s l) = out_len k s (length l).
Proof.
  intros Hk Hs. induction fuel as [|fuel IH]; intros l Hl.
  - lia.
  - simpl. unfold out_len.
    destruct (length l <? k) eqn:E; [reflexivity|].
    apply Nat.ltb_ge in E. simpl.
    rewrite IH by (rewrite length_skipn; lia).
    rewrite length_skipn. unfold out_len.
    destruct (length l - s <? k) eqn:E2.
    + apply Nat.ltb_lt in E2.
      assert (length l - k < s) by lia.
      rewrite Nat.div_small by assumption. reflexivity.
    + apply Nat.ltb_ge in E2.
      replace (length l - k) with ((length l - s - k) + 1 * s) by lia.
      rewrite Nat.div_add by lia. lia.
Qed.

(** Downsampling arithmetic: a window twice the stride over [T = m * s]
    samples padded by [p] zeros, [s <= p < 2 s], stops at [m] places. *)
Lemma out_len_downsample (s p T : nat) :
  0 < T -> T mod s = 0 -> s <= p < 2 * s ->
  out_len (2 * s) s (p + T) = T / s.
Proof.
  intros HT Hmod Hp.
  assert (Hs : s <> 0) by (intro; subst; simpl in Hmod; lia).
  pose proof (Nat.div_mod_eq T s) as HD. rewrite Hmod in HD.
  set (m := T / s) in *.
  assert (Hm : 0 < m) by (destruct m; [lia | lia]).
  unfold out_len.
  destruct (p + T <? 2 * s) eqn:E.
  - apply Nat.ltb_lt in E. nia.
  - replace (p + T - 2 * s) with ((p - s) + (m - 1) * s) by nia.
    rewrite Nat.div_add by assumption.
    rewrite Nat.div_small by lia. lia.
Qed.

(** The padding range is the only one that works: already at [T = s] the
    window count is 1 exactly when [s <= p < 2 s]. *)
Lemma out_len_downsample_only_if (s p : nat) :
  0 < s -> out_len (2 * s) s (p + s) = s / s -> s <= p < 2 * s.
Proof.
  intros Hs. rewrite Nat.div_same by lia. unfold out_len.
  destruct (p + s <? 2 * s) eqn:E; [discriminate|].
  apply Nat.ltb_ge in E. intros H.
  assert (D : (p + s - 2 * s) / s = 0) by lia.
  apply Nat.div_small_iff in D; lia.
Qed.

Lemma length_flat_map_const {A B} (f : A -> list B) (k : nat) (l : list A) :
  (forall a, length (f a) = k) -> length (flat_map f l) = length l * k.
Proof.
  intros Hf. induction l as [|a l IH]; [reflexivity|].
  cbn [flat_map length]. rewrite length_app, Hf, IH. lia.
Qed.

(** What the convolution returns fills its shape. *)
Lemma Conv1d_forward_wf (cv : Conv1d) (x y : Tensor) :
  Conv1d_forward cv x = Ok y -> wf y.
Proof.
  unfold Conv1d_forward.
  destruct (shape x) as [|B [|C [|T [|]]]]; try discriminate.
  destruct (_ || _); [discriminate|].
  intros H. inversion H; subst y; clear H. unfold wf.
  cbn [data shape numel fold_right].
  rewrite length_flat_map_const
    with (k := c_out cv
               * out_len (kernel_size cv) (stride cv)
                         (pad_left cv + T + pad_right cv)).
  - rewrite length_seq. lia.
  - intros b.
    rewrite length_flat_map_const
      with (k := out_len (kernel_size cv) (stride cv)
                         (pad_left cv + T + pad_right cv)).
    + rewrite length_seq. reflexivity.
    + intros o. rewrite length_map, length_seq. reflexivity.
Qed.

(** An empty time axis is rejected whenever the padding is shorter than
    the window. *)
Lemma Conv1d_forward_empty_time (cv : Conv1d) (x : Tensor) (B C : nat) :
  shape x = [B; C; 0] ->
  pad_left cv + pad_right cv < kernel_size cv ->
  Conv1d_forward cv x = Raise RuntimeError.
Proof.
  intros Hx Hp. unfold Conv1d_forward. rewrite Hx.
  replace (pad_left cv + 0 + pad_right cv <? kernel_size cv) with true
    by (symmetry; apply Nat.ltb_lt; lia).
  rewrite !orb_true_r. reflexivity.
Qed.

End WindowFacts.

(* ================================================================== *)
(** * Properties: EncoderBlock *)
(* ================================================================== *)

Section EncoderBlockFacts.
Import SpecLayers.

(** A stack of residual units leaves the shape alone. *)
Lemma forward_units_shape (p : Params) (c : nat) (dilations : list nat) :
  forall x B T, shape x = [B; c; T] ->
    exists y, forward_units (map (unit_class p c c) dilations) x = Ok y
              /\ shape y = [B; c; T].
Proof.
  induction dilations as [|d ds IH]; intros x B T Hx; simpl.
  - exists x. split; [reflexivity | assumption].
  - unfold ResidualUnit_forward. rewrite Hx, Nat.eqb_refl. simpl.
    apply IH. reflexivity.
Qed.

Lemma Conv1d_forward_shape (cv : Conv1d) (x : Tensor) (B T : nat) :
  shape x = [B; c_in cv; T] ->
  0 < stride cv -> 0 < kernel_size cv ->
  kernel_size cv <= pad_left cv + T + pad_right cv ->
  exists y, Conv1d_forward cv x = Ok y
    /\ shape y = [B; c_out cv;
                  out_len (kernel_size cv) (stride cv)
                          (pad_left cv + T + pad_right cv)].
Proof.
  intros Hx Hs Hk Hn. unfold Conv1d_forward. rewrite Hx.
  rewrite Nat.eqb_refl.
  destruct (stride cv =? 0) eqn:E1; [apply Nat.eqb_eq in E1; lia|].
  destruct (kernel_size cv =? 0) eqn:E2; [apply Nat.eqb_eq in E2; lia|].
  destruct (pad_left cv + T + pad_right cv <? kernel_size cv) eqn:E3;
    [apply Nat.ltb_lt in E3; lia|].
  simpl. eexists. split; reflexivity.
Qed.

(** The block built by [__init__] is in the mode it was asked for, and
    only the two modes construct. *)
Lemma EncoderBlock_init_mode lib cin cout s dil bias mode blk :
  EncoderBlock_init lib cin cout s dil bias mode = Ok blk ->
  blk_mode blk = mode /\ (mode = "noncausal" \/ mode = "causal")%string.
Proof.
  unfold EncoderBlock_init.
  destruct (String.eqb mode "noncausal") eqn:E1.
  - intros H. inversion H; subst; simpl. apply String.eqb_eq in E1. auto.
  - destruct (String.eqb mode "causal") eqn:E2; [|discriminate].
    intros H. inversion H; subst; simpl. apply String.eqb_eq in E2. auto.
Qed.

(** C6, as amended.  An encoder block built by [EncoderBlock.__init__]
    over the spec-modelled layer classes, whose strided convolution pads
    the time axis by a total of at least [stride] and less than
    [2 * stride] zeros, maps every input of shape (B, Cin, T) with a
    non-empty time axis (T >= 1) and T divisible by the stride to an
    output of shape (B, Cout, T / stride).  Neither condition is in the
    claim as first stated, and it fails without either one. *)
Theorem EncoderBlock_forward_time_length
    (p : Params) (in_channels out_channels stride_ : nat)
    (dilations : list nat) (bias : bool) (mode : string)
    (blk : EncoderBlock) (x : Tensor) (B T : nat) :
  EncoderBlock_init (classes p) in_channels out_channels stride_
                    dilations bias mode = Ok blk ->
  stride_ <= fst (padding p mode (2 * stride_))
             + snd (padding p mode (2 * stride_)) < 2 * stride_ ->
  shape x = [B; in_channels; T] ->
  0 < T ->
  T mod stride_ = 0 ->
  exists y, EncoderBlock_forward blk x = Ok y
            /\ shape y = [B; out_channels; T / stride_].
Proof.
  intros Hinit Hpad Hx HT Hmod.
  assert (Hs : 0 < stride_) by lia.
  pose proof (@EncoderBlock_init_mode _ _ _ _ _ _ _ _ Hinit) as [_ Hmode].
  unfold EncoderBlock_forward.
  assert (Hblk : res_units blk = map (unit_class p in_channels in_channels)
                                     dilations
                 /\ blk_conv blk = conv_class p mode in_channels
                                     out_channels (2 * stride_) stride_
                                     bias).
  { unfold EncoderBlock_init in Hinit.
    destruct Hmode as [-> | ->]; simpl in Hinit; inversion Hinit;
      subst; simpl; split; reflexivity. }
  destruct Hblk as [Hunits Hconv]. rewrite Hunits, Hconv.
  destruct (@forward_units_shape p in_channels dilations x B T Hx)
    as (y & Hy & Hshape).
  rewrite Hy. simpl rbind.
  set (pl := fst (padding p mode (2 * stride_))) in *.
  set (pr := snd (padding p mode (2 * stride_))) in *.
  set (cv := {| c_in := in_channels; c_out := out_channels;
                kernel_size := 2 * stride_; stride := stride_;
                pad_left := pl; pad_right := pr;
                kernel_fn := conv_kernel p |}).
  assert (HT' : stride_ <= T).
  { apply Nat.Div0.div_exact in Hmod.
    destruct (T / stride_); nia. }
  destruct (@Conv1d_forward_shape cv y B T) as (z & Hz & Hzs);
    try (simpl; lia); [exact Hshape|].
  exists z. split; [exact Hz|].
  rewrite Hzs. subst cv.
  cbn [kernel_size stride c_out pad_left pad_right].
  replace (pl + T + pr) with ((pl + pr) + T) by lia.
  rewrite out_len_downsample; [reflexivity | assumption | assumption | lia].
Qed.

(** Divisibility alone never suffices, whatever the padding of the absent
    convolution class: with fewer than [2 * stride] zeros an empty input
    (0 is divisible by every stride) is rejected, and with [2 * stride]
    zeros or more an input of [stride] samples comes out at least two
    frames long instead of one. *)
Lemma EncoderBlock_forward_divisible_not_enough
    (p : Params) (in_channels out_channels stride_ : nat)
    (dilations : list nat) (bias : bool) (mode : string)
    (blk : EncoderBlock) :
  EncoderBlock_init (classes p) in_channels out_channels stride_
                    dilations bias mode = Ok blk ->
  0 < stride_ ->
  exists T, T mod stride_ = 0
    /\ forall x B, shape x = [B; in_channels; T] ->
         forall y, EncoderBlock_forward blk x = Ok y ->
           shape y <> [B; out_channels; T / stride_].
Proof.
  intros Hinit Hs.
  pose proof (@EncoderBlock_init_mode _ _ _ _ _ _ _ _ Hinit) as [_ Hmode].
  assert (Hblk : res_units blk = map (unit_class p in_channels in_channels)
                                     dilations
                 /\ blk_conv blk = conv_class p mode in_channels
                                     out_channels (2 * stride_) stride_
                                     bias).
  { unfold EncoderBlock_init in Hinit.
    destruct Hmode as [-> | ->]; simpl in Hinit; inversion Hinit;
      subst; simpl; split; reflexivity. }
  destruct Hblk as [Hunits Hconv].
  set (pl := fst (padding p mode (2 * stride_))).
  set (pr := snd (padding p mode (2 * stride_))).
  set (cv := {| c_in := in_channels; c_out := out_channels;
                kernel_size := 2 * stride_; stride := stride_;
                pad_left := pl; pad_right := pr;
                kernel_fn := conv_kernel p |}).
  assert (Hfwd : forall x B T, shape x = [B; in_channels; T] ->
            exists u, shape u = [B; in_channels; T]
                      /\ EncoderBlock_forward blk x = Conv1d_forward cv u).
  { intros x B T Hx. unfold EncoderBlock_forward. rewrite Hunits, Hconv.
    destruct (@forward_units_shape p in_channels dilations x B T Hx)
      as (u & Hu & Hshape).
    rewrite Hu. exists u. split; [exact Hshape | reflexivity]. }
  destruct (Nat.lt_ge_cases (pl + pr) (2 * stride_)) as [Hlt | Hge].
  - exists 0. split; [apply Nat.Div0.mod_0_l|].
    intros x B Hx y Hy.
    destruct (Hfwd x B 0 Hx) as (u & Hu & E). rewrite E in Hy.
    rewrite (@Conv1d_forward_empty_time cv u B in_channels Hu) in Hy
      by (subst cv; cbn [pad_left pad_right kernel_size]; lia).
    discriminate Hy.
  - exists stride_. split; [apply Nat.Div0.mod_same|].
    intros x B Hx y Hy.
    destruct (Hfwd x B stride_ Hx) as (u & Hu & E). rewrite E in Hy.
    destruct (@Conv1d_forward_shape cv u B stride_) as (z & Hz & Hzs);
      try (subst cv; cbn [pad_left pad_right kernel_size stride c_in]; lia);
      [exact Hu|].
    rewrite Hz in Hy. inversion Hy; subst z. rewrite Hzs.
    subst cv. cbn [kernel_size stride c_out pad_left pad_right].
    rewrite Nat.div_same by lia.
    intros Heq. inversion Heq as [Hlen].
    assert (Hrange : stride_ <= pl + pr < 2 * stride_).
    { apply out_len_downsample_only_if; [exact Hs|].
      rewrite Nat.div_same by lia.
      replace (pl + pr + stride_) with (pl + stride_ + pr) by lia.
      exact Hlen. }
    lia.
Qed.

End EncoderBlockFacts.

(* ================================================================== *)
(** * Properties: torch.cat along the time axis *)
(* ================================================================== *)

Section CatFacts.

Lemma firstn_app_exact {A} (n : nat) (l1 l2 : list A) :
  length l1 = n -> firstn n (l1 ++ l2) = l1.
Proof.
  intros <-. rewrite firstn_app, Nat.sub_diag, firstn_all. simpl.
  apply app_nil_r.
Qed.

Lemma skipn_app_more {A} (n m : nat) (l1 l2 : list A) :
  length l1 = n -> skipn (n + m) (l1 ++ l2) = skipn m l2.
Proof.
  intros <-. rewrite skipn_app.
  rewrite (skipn_all2 l1) by lia. simpl. f_equal. lia.
Qed.

(** Chunk [k] of two interleaved operands is chunk [k] of the first
    followed by chunk [k] of the second. *)
Lemma cat_data_two_chunk (Ta Tb : nat) :
  forall outer da db k,
    length da = outer * Ta -> length db = outer * Tb -> k < outer ->
    firstn (Ta + Tb)
           (skipn (k * (Ta + Tb)) (cat_data outer [(Ta, da); (Tb, db)]))
    = firstn Ta (skipn (k * Ta) da) ++ firstn Tb (skipn (k * Tb) db).
Proof.
  induction outer as [|o IH]; intros da db k Ha Hb Hk; [lia|].
  cbn [cat_data flat_map map fst snd]. rewrite app_nil_r.
  assert (La : length (firstn Ta da) = Ta)
    by (rewrite length_firstn; nia).
  assert (Lb : length (firstn Tb db) = Tb)
    by (rewrite length_firstn; nia).
  assert (Lc : length (firstn Ta da ++ firstn Tb db) = Ta + Tb)
    by (rewrite length_app; lia).
  destruct k as [|k].
  - cbn [Nat.mul skipn]. apply firstn_app_exact. exact Lc.
  - replace (S k * (Ta + Tb)) with ((Ta + Tb) + k * (Ta + Tb)) by lia.
    rewrite skipn_app_more by exact Lc.
    rewrite IH; try lia.
    + rewrite !skipn_skipn. do 2 f_equal; f_equal; lia.
    + rewrite length_skipn. nia.
    + rewrite length_skipn. nia.
Qed.

Lemma cat_data_one (T : nat) :
  forall outer d, length d = outer * T -> cat_data outer [(T, d)] = d.
Proof.
  induction outer as [|o IH]; intros d Hd.
  - destruct d; [reflexivity | discriminate].
  - cbn [cat_data flat_map map fst snd]. rewrite app_nil_r.
    rewrite IH by (rewrite length_skipn; nia).
    apply firstn_skipn.
Qed.

(** [torch.cat((a, b), 2)] on two 3-axis operands: batch and channel
    sizes must agree, the time lengths add up, and every time row of the
    result is the row of [a] followed by the row of [b]. *)
Lemma torch_cat2_time (a b r : Tensor) :
  ndim a = 3 -> ndim b = 3 ->
  torch_cat [a; b] 2 = Ok r ->
  exists B C Ta Tb,
    shape a = [B; C; Ta] /\ shape b = [B; C; Tb]
    /\ shape r = [B; C; Ta + Tb]
    /\ (wf a -> wf b ->
        forall i j, i < B -> j < C ->
          time_row r i j = time_row a i j ++ time_row b i j).
Proof.
  unfold torch_cat, same_except, cat_skip, ndim. intros Ha Hb.
  cbn [existsb filter map].
  destruct (shape a) as [|B [|C [|Ta [|]]]] eqn:Ea; try discriminate.
  destruct (shape b) as [|B' [|C' [|Tb [|]]]] eqn:Eb; try discriminate.
  cbn [length Nat.eqb orb negb]. rewrite Ea.
  cbn [length Nat.leb forallb Nat.eqb firstn skipn andb].
  rewrite Eb. cbn [length Nat.eqb firstn skipn andb].
  destruct (shape_eqb [B; C] [B'; C']) eqn:E; [|discriminate].
  apply shape_eqb_eq in E. inversion E; subst B' C'.
  rewrite shape_eqb_refl. cbn [andb].
  intros H. inversion H; subst r; clear H.
  exists B, C, Ta, Tb.
  cbn [shape map nth list_sum firstn skipn app]. rewrite !Eb.
  cbn [nth numel fold_right].
  replace (Ta + (Tb + 0)) with (Ta + Tb) by lia.
  repeat split.
  intros Wa Wb i j Hi Hj.
  unfold time_row. cbn [shape data]. rewrite Ea, Eb.
  unfold wf in Wa, Wb. rewrite Ea in Wa. rewrite Eb in Wb.
  cbn [numel fold_right] in *.
  replace (Ta * 1) with Ta in * by lia.
  replace (Tb * 1) with Tb in * by lia.
  replace (B * (C * 1)) with (B * C) by lia.
  apply cat_data_two_chunk; nia.
Qed.

End CatFacts.

(* ================================================================== *)
(** * Properties: visual feature extractors *)
(* ================================================================== *)

Section VisualFacts.

(** Four copies of a 3-axis tensor concatenated along the time axis. *)
Lemma torch_cat4_same (t : Tensor) (B C T : nat) :
  shape t = [B; C; T] ->
  exists r, torch_cat [t; t; t; t] 2 = Ok r
            /\ shape r = [B; C; 4 * T].
Proof.
  intros Ht. unfold torch_cat, same_except, cat_skip, ndim.
  cbn [existsb filter map]. rewrite Ht.
  cbn [length Nat.eqb orb negb]. rewrite Ht.
  cbn [length Nat.leb forallb Nat.eqb firstn skipn andb].
  rewrite !Ht. cbn [length Nat.eqb firstn skipn andb].
  rewrite !shape_eqb_refl. cbn [andb].
  eexists. split; [reflexivity|].
  cbn [shape map nth list_sum app]. rewrite !Ht. cbn [nth].
  replace (4 * T) with (T + (T + (T + (T + 0)))) by lia. reflexivity.
Qed.

Lemma tile4_shape (pred out : Tensor) :
  tile4 pred = Ok out ->
  exists s0 s1, shape out = [s0; 512; 4 * (s1 / 512)].
Proof.
  unfold tile4, size_at, reshape.
  destruct (nth_error (shape pred) 0) as [s0|]; [|discriminate].
  destruct (nth_error (shape pred) 1) as [s1|]; [|discriminate].
  cbn [rbind].
  destruct (numel [s0; 512; s1 / 512] =? numel (shape pred));
    [|discriminate].
  cbn [rbind]. intros H.
  destruct (@torch_cat4_same
              {| shape := [s0; 512; s1 / 512]; data := data pred |}
              s0 512 (s1 / 512) eq_refl) as (r & Hr & Hs).
  rewrite Hr in H. inversion H; subst. eauto.
Qed.

Lemma tile4_of_features (pred : Tensor) (B : nat) :
  shape pred = [B; 512 * 1] ->
  exists out, tile4 pred = Ok out /\ shape out = [B; 512; 4].
Proof.
  intros Hp. unfold tile4, size_at, reshape. rewrite Hp.
  cbn [nth_error rbind].
  assert (E : 512 * 1 / 512 = 1) by (vm_compute; reflexivity).
  rewrite E.
  assert (N : (numel [B; 512; 1] =? numel [B; 512 * 1]) = true).
  { apply Nat.eqb_eq. cbn [numel fold_right]. lia. }
  rewrite N. cbn [rbind].
  destruct (@torch_cat4_same
              {| shape := [B; 512; 1]; data := data pred |}
              B 512 1 eq_refl) as (r & Hr & Hs).
  exists r. split; [exact Hr | exact Hs].
Qed.

Lemma squeeze_pooled (f : Tensor) (B : nat) :
  shape f = [B; 512; 1; 1] ->
  shape (squeeze_last (squeeze_last f)) = [B; 512].
Proof.
  intros Hf. unfold squeeze_last at 2. rewrite Hf.
  cbn [last Nat.eqb removelast].
  unfold squeeze_last. cbn [shape last Nat.eqb removelast]. reflexivity.
Qed.

Lemma Linear_512_shape (w : Tensor -> list float) (x : Tensor) (B : nat) :
  shape x = [B; 512] ->
  exists p,
    Linear_forward {| in_features := 512; out_features := 512 * 1;
                      linear_values := w |} x = Ok p
    /\ shape p = [B; 512 * 1].
Proof.
  intros Hx. unfold Linear_forward, ndim. rewrite Hx.
  cbn [length Nat.ltb Nat.leb last in_features andb].
  rewrite Nat.eqb_refl. eexists. split; reflexivity.
Qed.

(** C5.  Whenever the backbone accepts a batch of images of shape
    (B, 3, H, W) (it then yields its pooled (B, 512, 1, 1) feature map),
    the forward pass of either visual extractor returns a tensor of
    shape exactly (B, 512, 4), whatever H and W are. *)
Theorem VisualFeatureExtractor_output_shape
    (backbone1 backbone2 : Callable) (w1 w2 : Tensor -> list float)
    (inputs f1 f2 : Tensor) (B H W : nat) :
  shape inputs = [B; 3; H; W] ->
  backbone1 inputs = Ok f1 -> shape f1 = [B; 512; 1; 1] ->
  backbone2 inputs = Ok f2 -> shape f2 = [B; 512; 1; 1] ->
  (exists out,
      VISURAL_RES_NET1_forward (VISURAL_RES_NET1_init backbone1 w1) inputs
      = Ok out /\ shape out = [B; 512; 4])
  /\ (exists out,
      VISURAL_RES_NET2_forward (VISURAL_RES_NET2_init backbone2 w2) inputs
      = Ok out /\ shape out = [B; 512; 4]).
Proof.
  intros _ Hb1 Hs1 Hb2 Hs2. split.
  - unfold VISURAL_RES_NET1_forward, VISURAL_RES_NET1_init.
    cbn [feature_extraction1 predictor1]. rewrite Hb1. cbn [rbind].
    destruct (@Linear_512_shape w1 _ B (squeeze_pooled f1 Hs1))
      as (p & Hp & Hps).
    rewrite Hp. cbn [rbind].
    apply (tile4_of_features p Hps).
  - unfold VISURAL_RES_NET2_forward, VISURAL_RES_NET2_init.
    cbn [feature_extraction2 predictor2]. rewrite Hb2. cbn [rbind].
    destruct (@Linear_512_shape w2 _ B (squeeze_pooled f2 Hs2))
      as (p & Hp & Hps).
    rewrite Hp. cbn [rbind].
    apply (tile4_of_features p Hps).
Qed.

End VisualFacts.

(* ================================================================== *)
(** * Properties: Encoder *)
(* ================================================================== *)

Section EncoderFacts.

Lemma VISURAL_RES_NET1_forward_ndim (net : VISURAL_RES_NET1) (x out : Tensor) :
  VISURAL_RES_NET1_forward net x = Ok out -> ndim out = 3.
Proof.
  unfold VISURAL_RES_NET1_forward.
  destruct (feature_extraction1 net x) as [f|]; [|discriminate].
  cbn [rbind].
  destruct (Linear_forward _ _) as [p|]; [|discriminate].
  cbn [rbind]. intros H. change (tile4 p = Ok out) in H.
  destruct (tile4_shape _ H) as (s0 & s1 & Hs).
  unfold ndim. rewrite Hs. reflexivity.
Qed.

Lemma VISURAL_RES_NET2_forward_ndim (net : VISURAL_RES_NET2) (x out : Tensor) :
  VISURAL_RES_NET2_forward net x = Ok out -> ndim out = 3.
Proof.
  unfold VISURAL_RES_NET2_forward.
  destruct (feature_extraction2 net x) as [f|]; [|discriminate].
  cbn [rbind].
  destruct (Linear_forward _ _) as [p|]; [|discriminate].
  cbn [rbind]. intros H. change (tile4 p = Ok out) in H.
  destruct (tile4_shape _ H) as (s0 & s1 & Hs).
  unfold ndim. rewrite Hs. reflexivity.
Qed.

(** C2.  Whenever [Encoder.forward] returns, its first result is
    [torch.cat] along axis 2 of the speech branch output with the
    embedding of [ci], its second result [torch.cat] along axis 2 of the
    RIR branch output with the embedding of [mi]; on well-formed 3-axis
    operands every time row of a result is the branch's row followed by
    the embedding's row. *)
Theorem Encoder_forward_pairing
    (self : Encoder) (x mi ci x_speech_AV x_rir_AV : Tensor) :
  Encoder_forward self x mi ci = Ok (x_speech_AV, x_rir_AV) ->
  exists x_speech x_rir mi_code ci_code,
    VISURAL_RES_NET1_forward (visual_res_net1 self) mi = Ok mi_code
    /\ VISURAL_RES_NET2_forward (visual_res_net2 self) ci = Ok ci_code
    /\ speech_branch self x = Ok x_speech
    /\ rir_branch self x = Ok x_rir
    /\ torch_cat [x_speech; ci_code] 2 = Ok x_speech_AV
    /\ torch_cat [x_rir; mi_code] 2 = Ok x_rir_AV
    /\ (ndim x_speech = 3 -> wf x_speech -> wf ci_code ->
        forall B C T b c, shape x_speech_AV = [B; C; T] -> b < B -> c < C ->
          time_row x_speech_AV b c
          = time_row x_speech b c ++ time_row ci_code b c)
    /\ (ndim x_rir = 3 -> wf x_rir -> wf mi_code ->
        forall B C T b c, shape x_rir_AV = [B; C; T] -> b < B -> c < C ->
          time_row x_rir_AV b c
          = time_row x_rir b c ++ time_row mi_code b c).
Proof.
  unfold Encoder_forward, speech_branch, rir_branch.
  destruct (VISURAL_RES_NET1_forward _ mi) as [mi_code|] eqn:Hmi;
    [|discriminate].
  destruct (VISURAL_RES_NET2_forward _ ci) as [ci_code|] eqn:Hci;
    [|discriminate].
  cbn [rbind].
  destruct (forward (conv_combine self) x) as [x_combine|];
    [|discriminate].
  cbn [rbind].
  destruct (forward (conv self) x_combine) as [x0|]; [|discriminate].
  cbn [rbind].
  destruct (forward_blocks _ x0) as [x_speech|]; [|discriminate].
  cbn [rbind].
  destruct (encode_RIR self x_combine) as [x_rir|]; [|discriminate].
  cbn [rbind].
  destruct (torch_cat [x_speech; ci_code] 2) as [sa|] eqn:Hsa;
    [|discriminate].
  destruct (torch_cat [x_rir; mi_code] 2) as [ra|] eqn:Hra;
    [|discriminate].
  cbn [rbind]. intros H. inversion H; subst sa ra; clear H.
  exists x_speech, x_rir, mi_code, ci_code.
  repeat (split; [reflexivity || assumption|]).
  split.
  - intros Hn Wa Wb B C T b c Hs Hb Hc.
    destruct (torch_cat2_time _ _ Hn
                (VISURAL_RES_NET2_forward_ndim _ _ Hci) Hsa)
      as (B' & C' & Ta & Tb & _ & _ & Hr & Hrows).
    rewrite Hr in Hs. inversion Hs; subst. apply Hrows; assumption.
  - intros Hn Wa Wb B C T b c Hs Hb Hc.
    destruct (torch_cat2_time _ _ Hn
                (VISURAL_RES_NET1_forward_ndim _ _ Hmi) Hra)
      as (B' & C' & Ta & Tb & _ & _ & Hr & Hrows).
    rewrite Hr in Hs. inversion Hs; subst. apply Hrows; assumption.
Qed.

(** C9.  In causal mode [Encoder.encode] returns what [Encoder.forward]
    returns on the same inputs (the same pair of streams, or the same
    exception); the only difference is what it prints: the two shape
    lines, once both embeddings are computed. *)
Theorem Encoder_encode_eq_forward
    (self : Encoder) (x mi ci : Tensor) (out : Stdout) :
  mode self = "causal"%string ->
  fst (Encoder_encode self x mi ci out) = Encoder_forward self x mi ci
  /\ snd (Encoder_encode self x mi ci out)
     = match VISURAL_RES_NET1_forward (visual_res_net1 self) mi,
             VISURAL_RES_NET2_forward (visual_res_net2 self) ci with
       | Ok mi_code, Ok ci_code =>
           out ++ [("mi_code shape : "%string, shape mi_code);
                   ("ci_code shape : "%string, shape ci_code)]
       | _, _ => out
       end.
Proof.
  intros Hmode.
  unfold Encoder_encode, Encoder_forward, bind, lift, ret, print, modify,
    check_mode.
  rewrite Hmode. cbn [String.eqb Ascii.eqb Bool.eqb].
  destruct (VISURAL_RES_NET1_forward _ mi) as [mi_code|];
    [|split; reflexivity].
  destruct (VISURAL_RES_NET2_forward _ ci) as [ci_code|];
    [|split; reflexivity].
  cbn [rbind]. rewrite <- app_assoc. cbn [app].
  destruct (forward (conv_combine self) x) as [x_combine|];
    [|split; reflexivity].
  cbn [rbind].
  destruct (forward (conv self) x_combine) as [x0|]; [|split; reflexivity].
  cbn [rbind].
  destruct (forward_blocks _ x0) as [x_speech|]; [|split; reflexivity].
  cbn [rbind].
  destruct (encode_RIR self x_combine) as [x_rir|]; [|split; reflexivity].
  cbn [rbind].
  destruct (torch_cat [x_speech; ci_code] 2) as [sa|];
    [|split; reflexivity].
  cbn [rbind].
  destruct (torch_cat [x_rir; mi_code] 2) as [ra|]; split; reflexivity.
Qed.

(** C4.  A component in non-causal mode rejects its streaming entry
    point with the mode-mismatch error whatever the input and whatever
    its layers would do: [EncoderBlock.inference] leaves every layer
    buffer as it was, [Encoder.encode] prints nothing. *)
Theorem noncausal_streaming_rejected
    (blk : EncoderBlock) (enc : Encoder) (x mi ci : Tensor)
    (out : Stdout) :
  (blk_mode blk = "noncausal"%string ->
   EncoderBlock_inference x blk = (Raise ModeMismatchError, blk))
  /\ (mode enc = "noncausal"%string ->
      Encoder_encode enc x mi ci out = (Raise ModeMismatchError, out)).
Proof.
  split; intros Hmode.
  - unfold EncoderBlock_inference, bind, get, lift, check_mode.
    rewrite Hmode. reflexivity.
  - unfold Encoder_encode, bind, lift, check_mode.
    rewrite Hmode. reflexivity.
Qed.

End EncoderFacts.

(* ================================================================== *)
(** * Properties: the statistics run *)
(* ================================================================== *)

Section StatisticFacts.

Variable to_float32 : float -> float.
Variable sk_partial_fit : StandardScaler -> Tensor -> result ScalerAttrs.

(** [audio_analysis] never returns: [self.analyzer.encoder(x)] passes one
    positional argument where [Encoder.forward] requires three. *)
Lemma audio_analysis_raises (self : StatisticMain) (audio : Tensor) :
  audio_analysis to_float32 self audio = Raise (analysis_exn audio).
Proof.
  unfold audio_analysis, analysis_exn, transpose10, astype_float32, ndim.
  cbn [shape].
  destruct (shape audio) as [|a [|b rest]]; reflexivity.
Qed.

Lemma run_loop_nonempty_raises (self : StatisticMain)
    (audio : Tensor) (rest : list Tensor) (s1 s2 : StandardScaler) :
  run_loop to_float32 sk_partial_fit self (audio :: rest) s1 s2
  = Raise (analysis_exn audio).
Proof.
  cbn [run_loop]. rewrite audio_analysis_raises. reflexivity.
Qed.

(** What lines 125-137 do once both scalers are fitted: one [np.save] per
    branch, of a float32 array of shape (2, C) whose first row is [mean_]
    and second row [scale_], with [allow_pickle=False]. *)
Lemma persist_fitted (self : StatisticMain) (a_speech a_rir : ScalerAttrs)
    (C_speech C_rir : nat) (w : StatWorld) :
  shape (mean_ a_speech) = [C_speech] ->
  shape (scale_ a_speech) = [C_speech] ->
  shape (mean_ a_rir) = [C_rir] ->
  shape (scale_ a_rir) = [C_rir] ->
  persist to_float32 self (Some a_speech) (Some a_rir) w
  = (Ok tt,
     {| saved :=
          saved w
          ++ [ {| npy_file := stats_path_speech self;
                  npy_dtype := Float32;
                  npy_array :=
                    {| shape := [2; C_speech];
                       data := map to_float32
                                   (data (mean_ a_speech)
                                    ++ data (scale_ a_speech)) |};
                  npy_allow_pickle := false |};
               {| npy_file := stats_path_rir self;
                  npy_dtype := Float32;
                  npy_array :=
                    {| shape := [2; C_rir];
                       data := map to_float32
                                   (data (mean_ a_rir)
                                    ++ data (scale_ a_rir)) |};
                  npy_allow_pickle := false |} ];
        logged := logged w |}).
Proof.
  intros H1 H2 H3 H4.
  unfold persist, bind, lift, np_save, modify, np_stack2, get_mean_,
    get_scale_, astype_float32.
  rewrite H1, H2, H3, H4, !shape_eqb_refl.
  cbn [saved logged shape data]. rewrite <- app_assoc. reflexivity.
Qed.

(** C3.  On a dataset of zero utterances [run] raises: the scalers were
    never fitted, so reading [scaler_speech.mean_] is an [AttributeError];
    nothing is saved and nothing is logged. *)
Theorem run_empty_dataset_raises
    (path_speech path_rir : string) (g : Generator) (w : StatWorld) :
  run to_float32 sk_partial_fit
      {| stats_path_speech := path_speech; stats_path_rir := path_rir;
         analyzer := g; dataset := [] |} w
  = (Raise AttributeError, w).
Proof. reflexivity. Qed.

(** C1.  On a dataset of a single utterance [run] raises inside
    [audio_analysis] and saves no file. *)
Theorem run_single_utterance_raises
    (path_speech path_rir : string) (g : Generator) (audio : Tensor)
    (w : StatWorld) :
  run to_float32 sk_partial_fit
      {| stats_path_speech := path_speech; stats_path_rir := path_rir;
         analyzer := g; dataset := [audio] |} w
  = (Raise (analysis_exn audio), w).
Proof.
  unfold run, bind, lift. cbn [dataset].
  rewrite run_loop_nonempty_raises. reflexivity.
Qed.

(** C7.  On every non-empty dataset [run] stops at the first utterance:
    no [np.save] call is made for either branch. *)
Theorem run_nonempty_saves_nothing
    (path_speech path_rir : string) (g : Generator) (audio : Tensor)
    (rest : list Tensor) (w : StatWorld) :
  let r := run to_float32 sk_partial_fit
             {| stats_path_speech := path_speech;
                stats_path_rir := path_rir;
                analyzer := g; dataset := audio :: rest |} w in
  raised (fst r) = true /\ saved (snd r) = saved w.
Proof.
  unfold run, bind, lift. cbn [dataset].
  rewrite run_loop_nonempty_raises. split; reflexivity.
Qed.

End StatisticFacts.

(* ================================================================== *)
(** * Properties: the test driver's dataset loading *)
(* ================================================================== *)

Section CodecTestFacts.
Import CodecTest.

Lemma getattr_keeps (name : string) (self : Obj) :
  snd (getattr name self) = self.
Proof. unfold getattr. destruct (assoc self name); reflexivity. Qed.

Lemma config_subset_keeps (subset : string) (self : Obj) :
  snd (config_subset subset self) = self.
Proof.
  unfold config_subset, bind, lift, getattr.
  destruct (assoc self "config") as [c|]; [|reflexivity].
  destruct (getitem c "data") as [d|]; [|reflexivity].
  destruct (getitem d "subset") as [v|]; reflexivity.
Qed.

Lemma dir_step_keeps (subset attr : string) (self : Obj) :
  snd (dir_step subset attr self) = self.
Proof.
  unfold dir_step, bind, lift.
  pose proof (config_subset_keeps subset self) as Hc.
  destruct (config_subset subset self) as [[a|e] s']; simpl in Hc; subst s';
    [|reflexivity].
  pose proof (getattr_keeps attr self) as Hg.
  destruct (getattr attr self) as [[b|e] s']; simpl in Hg; subst s';
    reflexivity.
Qed.

Lemma dir_step_ok (subset attr dir v : string) (self : Obj) :
  config_subset subset self = (Ok (PStr dir), self) ->
  assoc self attr = Some (PStr v) ->
  exists path, dir_step subset attr self = (Ok path, self).
Proof.
  intros Hc Ha. unfold dir_step, bind, lift, getattr.
  rewrite Hc, Ha. unfold os_path_join.
  destruct (starts_with_slash v); [eauto|].
  destruct (String.eqb dir "" || ends_with_slash dir); eauto.
Qed.

Lemma load_dataset_steps (path_exists : string -> bool)
    (subset : string) (subset_num : Z) (self : Obj) :
  load_dataset path_exists subset subset_num self
  = match dir_step subset "data_reverb_path" self with
    | (Ok _, s1) =>
        match dir_step subset "data_material_path" s1 with
        | (Ok _, s2) =>
            match dir_step subset "data_image_path" s2 with
            | (Ok _, s3) => (Raise NameError, s3)
            | (Raise e, s3) => (Raise e, s3)
            end
        | (Raise e, s2) => (Raise e, s2)
        end
    | (Raise e, s1) => (Raise e, s1)
    end.
Proof.
  unfold load_dataset, dir_step, bind, lift.
  destruct (config_subset subset self) as [[a1|e] s]; [|reflexivity].
  destruct (getattr "data_reverb_path" s) as [[b1|e] s1]; [|reflexivity].
  destruct (os_path_join a1 b1) as [d1|e]; [|reflexivity].
  destruct (config_subset subset s1) as [[a2|e] s2]; [|reflexivity].
  destruct (getattr "data_material_path" s2) as [[b2|e] s3];
    [|reflexivity].
  destruct (os_path_join a2 b2) as [d2|e]; [|reflexivity].
  destruct (config_subset subset s3) as [[a3|e] s4]; [|reflexivity].
  destruct (getattr "data_image_path" s4) as [[b3|e] s5]; [|reflexivity].
  destruct (os_path_join a3 b3) as [d3|e]; reflexivity.
Qed.

(** C10, as amended.  [TestMain.load_dataset] never succeeds and never
    assigns [self.dataset], for every subset name and [subset_num]; when
    the configuration maps the subset name to a directory string and the
    three path attributes are strings, the exception is the [NameError]
    of the undefined [data_path] in the assertion; when
    [self.config['data']['subset']] is a dictionary without the subset
    name, it is the [KeyError] of the first lookup. *)
Theorem load_dataset_never_succeeds
    (path_exists : string -> bool) (subset : string) (subset_num : Z)
    (self : Obj) :
  (exists e,
      load_dataset path_exists subset subset_num self = (Raise e, self))
  /\ (forall dir reverb material image,
        config_subset subset self = (Ok (PStr dir), self) ->
        assoc self "data_reverb_path" = Some (PStr reverb) ->
        assoc self "data_material_path" = Some (PStr material) ->
        assoc self "data_image_path" = Some (PStr image) ->
        load_dataset path_exists subset subset_num self
        = (Raise NameError, self))
  /\ (forall cfg data subs,
        assoc self "config" = Some (PDict cfg) ->
        assoc cfg "data" = Some (PDict data) ->
        assoc data "subset" = Some (PDict subs) ->
        assoc subs subset = None ->
        load_dataset path_exists subset subset_num self
        = (Raise KeyError, self)).
Proof.
  rewrite load_dataset_steps. split; [|split].
  - pose proof (dir_step_keeps subset "data_reverb_path" self) as H1.
    destruct (dir_step subset "data_reverb_path" self) as [[d1|e] s1];
      simpl in H1; subst s1; [|eauto].
    pose proof (dir_step_keeps subset "data_material_path" self) as H2.
    destruct (dir_step subset "data_material_path" self) as [[d2|e] s2];
      simpl in H2; subst s2; [|eauto].
    pose proof (dir_step_keeps subset "data_image_path" self) as H3.
    destruct (dir_step subset "data_image_path" self) as [[d3|e] s3];
      simpl in H3; subst s3; eauto.
  - intros dir reverb material image Hc Hr Hm Hi.
    destruct (@dir_step_ok subset _ dir reverb self Hc Hr) as [p1 ->].
    destruct (@dir_step_ok subset _ dir material self Hc Hm) as [p2 ->].
    destruct (@dir_step_ok subset _ dir image self Hc Hi) as [p3 ->].
    reflexivity.
  - intros cfg data subs Hcfg Hdata Hsubs Hmiss.
    unfold dir_step, config_subset, bind, lift, getattr, getitem.
    rewrite Hcfg, Hdata, Hsubs, Hmiss. reflexivity.
Qed.

End CodecTestFacts.

(* ================================================================== *)
(** * The theorems at concrete instances *)
(* ================================================================== *)

Section Instances.
Import Examples CodecTest.

(** The example blocks are what [__init__] builds. *)
Lemma causal_block_init :
  EncoderBlock_init (SpecLayers.classes params) 1 2 3 [1; 3; 9] true
                    "causal" = Ok causal_block.
Proof. reflexivity. Qed.

Lemma noncausal_block_init :
  EncoderBlock_init (SpecLayers.classes params) 1 2 3 [1; 3; 9] true
                    "noncausal" = Ok noncausal_block.
Proof. reflexivity. Qed.

(** A causal block of stride 3 takes 6 samples to 2. *)
Lemma EncoderBlock_forward_time_length_witness :
  exists y, EncoderBlock_forward causal_block audio = Ok y
            /\ shape y = [1; 2; 6 / 3].
Proof.
  apply (@EncoderBlock_forward_time_length params 1 2 3 [1; 3; 9] true
           "causal" causal_block audio 1 6).
  - reflexivity.
  - simpl; lia.
  - reflexivity.
  - lia.
  - reflexivity.
Defined.

(** C6 as stated fails on inputs whose length the stride divides.  The
    causal block of stride 3 rejects the empty signal (0 mod 3 = 0)
    instead of returning 0 / 3 = 0 frames; the non-causal block of
    stride 1, whose window of 2 is not padded, returns 5 frames for 6
    samples instead of 6 / 1 = 6. *)
Lemma EncoderBlock_forward_time_length_fails :
  (EncoderBlock_init (SpecLayers.classes params) 1 2 3 [1; 3; 9] true
                     "causal" = Ok causal_block
   /\ shape empty_audio = [1; 1; 0]
   /\ 0 mod 3 = 0
   /\ EncoderBlock_forward causal_block empty_audio = Raise RuntimeError)
  /\ (EncoderBlock_init (SpecLayers.classes params) 1 2 1 [1; 3; 9] true
                        "noncausal" = Ok unit_stride_block
      /\ shape audio = [1; 1; 6]
      /\ 6 mod 1 = 0
      /\ (exists y, EncoderBlock_forward unit_stride_block audio = Ok y
                    /\ shape y = [1; 2; 5])
      /\ 5 <> 6 / 1).
Proof.
  split.
  - repeat split; reflexivity.
  - repeat split; try reflexivity.
    + eexists. split; reflexivity.
    + discriminate.
Qed.

Lemma noncausal_streaming_rejected_witness :
  EncoderBlock_inference audio noncausal_block
  = (Raise ModeMismatchError, noncausal_block)
  /\ Encoder_encode (encoder_in "noncausal") audio image image []
     = (Raise ModeMismatchError, []).
Proof.
  destruct (noncausal_streaming_rejected noncausal_block
              (encoder_in "noncausal") audio image image [])
    as [H1 H2].
  split; [apply H1 | apply H2]; reflexivity.
Defined.

Lemma VisualFeatureExtractor_output_shape_witness :
  (exists out, VISURAL_RES_NET1_forward net1 image = Ok out
               /\ shape out = [1; 512; 4])
  /\ (exists out, VISURAL_RES_NET2_forward net2 image = Ok out
                  /\ shape out = [1; 512; 4]).
Proof.
  apply (@VisualFeatureExtractor_output_shape
           (backbone PrimFloat.one) (backbone PrimFloat.two) _ _ image
           (constant [1; 512; 1; 1] PrimFloat.one)
           (constant [1; 512; 1; 1] PrimFloat.two) 1 2 2);
    reflexivity.
Defined.

Lemma Encoder_encode_eq_forward_witness :
  fst (Encoder_encode (encoder_in "causal") audio image image [])
  = Encoder_forward (encoder_in "causal") audio image image
  /\ snd (Encoder_encode (encoder_in "causal") audio image image [])
     = [("mi_code shape : "%string, [1; 512; 4]);
        ("ci_code shape : "%string, [1; 512; 4])].
Proof.
  destruct (@Encoder_encode_eq_forward (encoder_in "causal") audio image
              image [] eq_refl) as [H1 H2].
  split; [exact H1|]. rewrite H2. reflexivity.
Defined.

(** In the example the speech rows end with the embedding of [ci]
    (twos), the RIR rows with the embedding of [mi] (ones). *)
Lemma Encoder_forward_pairing_witness :
  exists sa ra,
    streams = Ok (sa, ra)
    /\ time_row sa 0 0
       = [PrimFloat.zero; PrimFloat.zero;
          PrimFloat.two; PrimFloat.two; PrimFloat.two; PrimFloat.two]
    /\ time_row ra 0 0
       = [PrimFloat.zero;
          PrimFloat.one; PrimFloat.one; PrimFloat.one; PrimFloat.one].
Proof.
  destruct streams as [[sa ra]|] eqn:E; [|discriminate E].
  assert (F : Encoder_forward (encoder_in "causal") audio image image
              = Ok (sa, ra)).
  { rewrite <- E. vm_compute. reflexivity. }
  exists sa, ra. split; [reflexivity|].
  destruct (Encoder_forward_pairing _ _ _ _ F)
    as (xs & xr & mc & cc & Hmi & Hci & Hs & Hr & _ & _ & Rs & Rr).
  vm_compute in Hs. inversion Hs; subst xs; clear Hs.
  vm_compute in Hr. inversion Hr; subst xr; clear Hr.
  vm_compute in Hmi. inversion Hmi; subst mc; clear Hmi.
  vm_compute in Hci. inversion Hci; subst cc; clear Hci.
  vm_compute in E. inversion E; subst sa ra; clear E.
  split.
  - rewrite (Rs eq_refl eq_refl eq_refl 1 512 6 0 0 eq_refl);
      [reflexivity | lia | lia].
  - rewrite (Rr eq_refl eq_refl eq_refl 1 512 5 0 0 eq_refl);
      [reflexivity | lia | lia].
Defined.

Lemma load_dataset_never_succeeds_witness :
  load_dataset (fun _ => true) "test" (-1) test_main
  = (Raise NameError, test_main)
  /\ load_dataset (fun _ => true) "valid" (-1) test_main
     = (Raise KeyError, test_main).
Proof.
  split.
  - apply (proj1 (proj2 (load_dataset_never_succeeds (fun _ => true) "test"
                           (-1)%Z test_main))
             "clean" "reverb" "material" "image")%string;
      reflexivity.
  - apply (proj2 (proj2 (load_dataset_never_succeeds (fun _ => true) "valid"
                           (-1)%Z test_main))
             [("data",
               PDict [("subset", PDict [("test", PStr "clean")])])]
             [("subset", PDict [("test", PStr "clean")])]
             [("test", PStr "clean")])%string;
      reflexivity.
Defined.

(** C10 as stated fails: for a subset name the configuration does not
    list, the lookup raises [KeyError] before the assertion is reached. *)
Lemma load_dataset_unknown_subset_KeyError :
  fst (load_dataset (fun _ => true) "train" (-1) test_main)
  = Raise KeyError
  /\ fst (load_dataset (fun _ => true) "train" (-1) test_main)
     <> Raise NameError.
Proof. split; [reflexivity | discriminate]. Qed.

(** ** The tensor operations on small inputs *)

Example transpose10_2x3 :
  transpose10 {| shape := [2; 3];
                 data := [1; 2; 3; 4; 5; 6]%float |}
  = Ok {| shape := [3; 2]; data := [1; 4; 2; 5; 3; 6]%float |}.
Proof. reflexivity. Qed.

Example torch_cat_time_axis :
  torch_cat [ {| shape := [1; 2; 1]; data := [1; 2]%float |};
              {| shape := [1; 2; 2]; data := [7; 8; 9; 10]%float |} ] 2
  = Ok {| shape := [1; 2; 3]; data := [1; 7; 8; 2; 9; 10]%float |}.
Proof. reflexivity. Qed.

Example torch_cat_channel_mismatch :
  torch_cat [ {| shape := [1; 2; 1]; data := [1; 2]%float |};
              {| shape := [1; 1; 2]; data := [7; 8]%float |} ] 2
  = Raise RuntimeError.
Proof. reflexivity. Qed.

Example squeeze_last_keeps_wide_axis :
  shape (squeeze_last {| shape := [2; 3]; data := [] |}) = [2; 3].
Proof. reflexivity. Qed.

Example windows_stride3 :
  SpecLayers.windows 12 6 3 [0; 0; 0; 0; 0; 1; 2; 3; 4; 5; 6]%float
  = [[0; 0; 0; 0; 0; 1]; [0; 0; 1; 2; 3; 4]]%float.
Proof. reflexivity. Qed.

Example os_path_join_relative :
  os_path_join (PStr "clean") (PStr "reverb") = Ok "clean/reverb"%string.
Proof. reflexivity. Qed.

Example os_path_join_absolute :
  os_path_join (PStr "clean") (PStr "/data/reverb")
  = Ok "/data/reverb"%string.
Proof. reflexivity. Qed.

(** ** The statistics run on one second of 16 kHz mono audio *)

Example run_one_second_utterance
    (to_float32 : float -> float)
    (sk_partial_fit : StandardScaler -> Tensor -> result ScalerAttrs)
    (g : Generator) (samples : list float) :
  run to_float32 sk_partial_fit
      {| stats_path_speech := "stats/speech.npy";
         stats_path_rir := "stats/rir.npy";
         analyzer := g;
         dataset := [ {| shape := [16 * 1000; 1]; data := samples |} ] |}
      {| saved := []; logged := [] |}
  = (Raise TypeError, {| saved := []; logged := [] |}).
Proof.
  unfold run, bind, lift. cbn [dataset].
  rewrite run_loop_nonempty_raises. reflexivity.
Qed.

End Instances.

(* ================================================================== *)
(** * Properties: EncoderBlock.__init__ and the streaming entry point *)
(* ================================================================== *)

Section EncoderBlockMore.
Import SpecLayers.

(** [EncoderBlock.__init__] accepts exactly the two mode strings; the
    block it returns records the mode and has one residual unit per
    dilation.  Any other mode is a [NotImplementedError]. *)
Theorem EncoderBlock_init_modes
    (lib : LayerClasses) (in_channels out_channels stride_ : nat)
    (dilations : list nat) (bias : bool) (mode : string) :
  (mode = "noncausal" \/ mode = "causal")%string
  /\ (exists blk,
        EncoderBlock_init lib in_channels out_channels stride_ dilations
                          bias mode = Ok blk
        /\ blk_mode blk = mode /\ num_res blk = length dilations)
  \/ (mode <> "noncausal" /\ mode <> "causal")%string
     /\ EncoderBlock_init lib in_channels out_channels stride_ dilations
                          bias mode = Raise NotImplementedError.
Proof.
  unfold EncoderBlock_init, num_res.
  destruct (String.eqb_spec mode "noncausal") as [E1|E1].
  - left. split; [auto|]. eexists. split; [reflexivity|].
    cbn [blk_mode res_units]. rewrite length_map. auto.
  - destruct (String.eqb_spec mode "causal") as [E2|E2].
    + left. split; [auto|]. eexists. split; [reflexivity|].
      cbn [blk_mode res_units]. rewrite length_map. auto.
    + right. auto.
Qed.



End EncoderBlockMore.

(* ================================================================== *)
(** * Properties: Encoder.__init__ *)
(* ================================================================== *)

Section EncoderInitFacts.
Import SpecLayers.

Lemma EncoderBlock_init_ok lib cin cout s dil bias mode blk :
  EncoderBlock_init lib cin cout s dil bias mode = Ok blk ->
  blk_mode blk = mode /\ num_res blk = length dil
  /\ (mode = "noncausal" \/ mode = "causal")%string.
Proof.
  unfold EncoderBlock_init, num_res.
  destruct (String.eqb_spec mode "noncausal") as [E1|E1].
  - intros H. inversion H; subst blk. cbn [blk_mode res_units].
    rewrite length_map. auto.
  - destruct (String.eqb_spec mode "causal") as [E2|E2]; [|discriminate].
    intros H. inversion H; subst blk. cbn [blk_mode res_units].
    rewrite length_map. auto.
Qed.

(** What a block-building loop leaves behind. *)
Lemma init_blocks_ok lib ec ratios bias mode :
  forall strides idx in_c oc bs c o,
    init_blocks lib ec ratios bias mode idx in_c oc strides = Ok (bs, c, o) ->
    length bs = length strides
    /\ Forall (fun b => blk_mode b = mode
                        /\ num_res b = length default_dilations) bs
    /\ (strides = [] -> c = in_c /\ o = oc)
    /\ (strides <> [] ->
        (mode = "noncausal" \/ mode = "causal")%string
        /\ o = Some c
        /\ exists r, nth_error ratios (idx + length strides - 1) = Some r
                     /\ c = ec * r).
Proof.
  induction strides as [|s rest IH]; intros idx in_c oc bs c o H.
  - cbn [init_blocks] in H. inversion H; subst.
    repeat split; auto; congruence.
  - cbn [init_blocks] in H. unfold tuple_at in H.
    destruct (nth_error ratios idx) as [r|] eqn:Er; [|discriminate].
    cbn [rbind] in H.
    destruct (EncoderBlock_init lib in_c (ec * r) s default_dilations bias
                                mode) as [b|] eqn:Eb; [|discriminate].
    cbn [rbind] in H.
    destruct (init_blocks lib ec ratios bias mode (S idx) (ec * r)
                          (Some (ec * r)) rest)
      as [[[bs' c'] o']|] eqn:Et; [|discriminate].
    cbn [rbind fst snd] in H. inversion H; subst; clear H.
    destruct (EncoderBlock_init_ok _ _ _ _ _ _ _ Eb) as (Hm & Hn & Hmode).
    destruct (IH _ _ _ _ _ _ Et) as (Hl & Hall & Hnil & Hcons).
    split; [cbn [length]; congruence|].
    split; [constructor; auto|].
    split; [discriminate|].
    intros _. split; [exact Hmode|].
    destruct rest as [|s' rest'].
    + destruct (Hnil eq_refl) as [-> ->]. split; [reflexivity|].
      exists r. split; [|reflexivity].
      cbn [length]. replace (idx + 1 - 1) with idx by lia. exact Er.
    + destruct (Hcons ltac:(discriminate)) as (_ & -> & r' & Hr' & ->).
      split; [reflexivity|]. exists r'. split; [|reflexivity].
      cbn [length] in *.
      replace (idx + S (S (length rest')) - 1)
        with (S idx + S (length rest') - 1) by lia.
      exact Hr'.
Qed.

(** [Encoder.__init__] checks the three pairs of tuple lengths before
    anything else: one unequal pair is an [AssertionError], whatever the
    mode string.  The defaults of the RIR pair have lengths 4 and 5. *)
Theorem Encoder_init_length_mismatch
    (lib : LayerClasses) (parts : TorchParts)
    (input_channels encode_channels : nat)
    (cr sr rr cs ss rs : list nat)
    (kernel_size : nat) (bias : bool) (mode : string) :
  length cr <> length cs \/ length sr <> length ss
  \/ length rr <> length rs ->
  Encoder_init lib parts input_channels encode_channels cr sr rr cs ss rs
               kernel_size bias mode = Raise AssertionError.
Proof.
  intros H. unfold Encoder_init, py_assert.
  destruct (Nat.eqb_spec (length cr) (length cs)) as [E1|E1];
    [|reflexivity].
  destruct (Nat.eqb_spec (length sr) (length ss)) as [E2|E2];
    [|reflexivity].
  destruct (Nat.eqb_spec (length rr) (length rs)) as [E3|E3];
    [|reflexivity].
  tauto.
Qed.

(** With equal lengths, a mode other than the two known ones is a
    [NotImplementedError]; with a known mode and no stride at all in the
    combine and speech tuples, [out_channels] is read before it is ever
    assigned. *)
Theorem Encoder_init_bad_mode_or_no_block
    (lib : LayerClasses) (parts : TorchParts)
    (input_channels encode_channels : nat)
    (cr sr rr cs ss rs : list nat)
    (kernel_size : nat) (bias : bool) (mode : string) :
  length cr = length cs -> length sr = length ss ->
  length rr = length rs ->
  ((mode <> "noncausal" /\ mode <> "causal")%string ->
   Encoder_init lib parts input_channels encode_channels cr sr rr cs ss rs
                kernel_size bias mode = Raise NotImplementedError)
  /\ ((mode = "noncausal" \/ mode = "causal")%string ->
      cs = [] -> ss = [] ->
      Encoder_init lib parts input_channels encode_channels cr sr rr cs ss
                   rs kernel_size bias mode = Raise UnboundLocalError).
Proof.
  intros E1 E2 E3. unfold Encoder_init, py_assert.
  rewrite E1, E2, E3, !Nat.eqb_refl. cbn [rbind]. split.
  - intros [N1 N2].
    destruct (String.eqb_spec mode "noncausal"); [contradiction|].
    destruct (String.eqb_spec mode "causal"); [contradiction|].
    reflexivity.
  - intros Hm -> ->.
    destruct Hm as [-> | ->]; reflexivity.
Qed.

(** A constructed encoder: it is in the mode asked for, that mode is one
    of the two known ones, it has one block per stride, every block is in
    the encoder's mode with three residual units, and [out_channels] is
    [encode_channels] times the last speech ratio (the last combine ratio
    when there is no speech stride). *)
Theorem Encoder_init_structure
    (lib : LayerClasses) (parts : TorchParts)
    (input_channels encode_channels : nat)
    (cr sr rr cs ss rs : list nat)
    (kernel_size : nat) (bias : bool) (mode_ : string) (enc : Encoder) :
  Encoder_init lib parts input_channels encode_channels cr sr rr cs ss rs
               kernel_size bias mode_ = Ok enc ->
  mode enc = mode_
  /\ (mode_ = "noncausal" \/ mode_ = "causal")%string
  /\ length (combine_conv_blocks enc) = length cs
  /\ length (seperate_conv_blocks_1 enc) = length ss
  /\ Forall (fun b => blk_mode b = mode_ /\ num_res b = 3)
            (combine_conv_blocks enc ++ seperate_conv_blocks_1 enc)
  /\ out_channels enc
     = encode_channels * last (if length ss =? 0 then cr else sr) 0.
Proof.
  unfold Encoder_init, py_assert.
  destruct (Nat.eqb_spec (length cr) (length cs)) as [E1|E1];
    [|discriminate].
  destruct (Nat.eqb_spec (length sr) (length ss)) as [E2|E2];
    [|discriminate].
  destruct (Nat.eqb_spec (length rr) (length rs)) as [E3|E3];
    [|discriminate].
  cbn [rbind].
  assert (Hmode : (mode_ = "noncausal" \/ mode_ = "causal")%string
                  \/ (if String.eqb mode_ "noncausal"
                      then Ok (NonCausalConv1d lib)
                      else if String.eqb mode_ "causal"
                           then Ok (CausalConv1d lib)
                           else Raise NotImplementedError)
                     = Raise NotImplementedError).
  { destruct (String.eqb_spec mode_ "noncausal"); [auto|].
    destruct (String.eqb_spec mode_ "causal"); auto. }
  destruct Hmode as [Hmode | ->]; [|discriminate].
  destruct (if String.eqb mode_ "noncausal" then _ else _) as [Conv|];
    [|discriminate].
  cbn [rbind].
  destruct (init_blocks lib encode_channels cr bias mode_ 0 encode_channels
                        None cs) as [[[cb c1] o1]|] eqn:Ec; [|discriminate].
  cbn [rbind fst snd].
  destruct (init_blocks lib encode_channels sr bias mode_ 0 c1 o1 ss)
    as [[[sb c2] o2]|] eqn:Es; [|discriminate].
  cbn [rbind fst snd].
  destruct o2 as [o|]; [|discriminate].
  cbn [rbind]. intros H. inversion H; subst enc; clear H.
  cbn [mode combine_conv_blocks seperate_conv_blocks_1 out_channels].
  destruct (@init_blocks_ok _ _ _ _ _ _ _ _ _ _ _ _ Ec) as (L1 & A1 & N1 & C1).
  destruct (@init_blocks_ok _ _ _ _ _ _ _ _ _ _ _ _ Es) as (L2 & A2 & N2 & C2).
  repeat (split; [assumption || reflexivity|]).
  split; [apply Forall_app; split; assumption|].
  assert (Hlast : forall (l : list nat) n r,
             length l = n -> nth_error l (0 + n - 1) = Some r ->
             last l 0 = r).
  { intros l n r Hl Hr. cbn [Nat.add] in Hr.
    destruct l as [|a l] using rev_ind.
    - subst n. destruct (0 - 1); discriminate.
    - rewrite last_last. rewrite length_app in Hl. cbn [length] in Hl.
      subst n. rewrite nth_error_app2 in Hr by lia.
      replace (length l + 1 - 1 - length l) with 0 in Hr by lia.
      cbn in Hr. congruence. }
  destruct ss as [|s ss'].
  - destruct (N2 eq_refl) as [Hc2 Ho1]. subst c2 o1. cbn [length Nat.eqb].
    destruct cs as [|s cs'].
    + destruct (N1 eq_refl) as [_ Ho]. discriminate.
    + destruct (C1 ltac:(discriminate)) as (_ & Ho & r & Hr & Hc1).
      inversion Ho; subst o c1. f_equal. symmetry.
      apply (Hlast cr _ r E1 Hr).
  - destruct (C2 ltac:(discriminate)) as (_ & Ho & r & Hr & Hc2).
    inversion Ho; subst o c2. cbn [length Nat.eqb]. f_equal. symmetry.
    apply (Hlast sr _ r E2 Hr).
Qed.

End EncoderInitFacts.

(* ================================================================== *)
(** * Properties: the encoder's branches, end to end *)
(* ================================================================== *)

Section BranchFacts.
Import SpecLayers.

(** One block built over the spec-modelled classes (the step the stack
    theorem below iterates). *)
Lemma init_block_forward_shape
    (p : Params) (cin cout s : nat) (dil : list nat) (bias : bool)
    (mode : string) (blk : EncoderBlock) (x : Tensor) (B T : nat) :
  EncoderBlock_init (classes p) cin cout s dil bias mode = Ok blk ->
  s <= fst (padding p mode (2 * s)) + snd (padding p mode (2 * s)) < 2 * s ->
  shape x = [B; cin; T] -> 0 < T -> T mod s = 0 ->
  exists y, EncoderBlock_forward blk x = Ok y
            /\ shape y = [B; cout; T / s].
Proof.
  intros Hinit Hpad Hx HT Hmod.
  destruct (EncoderBlock_init_ok _ _ _ _ _ _ _ Hinit) as (_ & _ & Hmode).
  assert (Hblk : res_units blk = map (unit_class p cin cin) dil
                 /\ blk_conv blk = conv_class p mode cin cout (2 * s) s bias).
  { unfold EncoderBlock_init in Hinit.
    destruct Hmode as [-> | ->]; cbn in Hinit; inversion Hinit; subst;
      split; reflexivity. }
  destruct Hblk as [Hunits Hconv].
  unfold EncoderBlock_forward. rewrite Hunits, Hconv.
  destruct (@forward_units_shape p cin dil x B T Hx) as (y & Hy & Hs).
  rewrite Hy. cbn [rbind].
  set (pl := fst (padding p mode (2 * s))) in *.
  set (pr := snd (padding p mode (2 * s))) in *.
  assert (HsT : s <= T).
  { apply Nat.Div0.div_exact in Hmod. destruct (T / s); nia. }
  destruct (@Conv1d_forward_shape
              {| c_in := cin; c_out := cout; kernel_size := 2 * s;
                 stride := s; pad_left := pl; pad_right := pr;
                 kernel_fn := conv_kernel p |} y B T)
    as (z & Hz & Hzs); try (cbn [c_in kernel_size stride pad_left pad_right];
                            lia); [exact Hs|].
  exists z. split; [exact Hz|]. rewrite Hzs.
  cbn [kernel_size stride c_out pad_left pad_right].
  replace (pl + T + pr) with ((pl + pr) + T) by lia.
  rewrite out_len_downsample by (assumption || lia). reflexivity.
Qed.

(** The blocks one loop of [Encoder.__init__] builds, run in order as
    [forward] runs them, divide the time length by the product of the
    strides and end at the loop's last channel width. *)
Lemma init_blocks_forward_shape (p : Params) (ec : nat) (ratios : list nat)
    (bias : bool) (mode : string) :
  forall strides idx in_c oc bs c o x B T,
    init_blocks (classes p) ec ratios bias mode idx in_c oc strides
    = Ok (bs, c, o) ->
    (forall s, In s strides ->
       s <= fst (padding p mode (2 * s)) + snd (padding p mode (2 * s))
         < 2 * s) ->
    shape x = [B; in_c; T] -> 0 < T -> T mod product strides = 0 ->
    exists y, forward_blocks bs x = Ok y
              /\ shape y = [B; c; T / product strides].
Proof.
  induction strides as [|s rest IH];
    intros idx in_c oc bs c o x B T H Hpad Hx HT Hmod.
  - cbn [init_blocks] in H. inversion H; subst.
    exists x. cbn [forward_blocks product fold_right].
    rewrite Nat.div_1_r. auto.
  - cbn [init_blocks] in H. unfold tuple_at in H.
    destruct (nth_error ratios idx) as [r|]; [|discriminate].
    cbn [rbind] in H.
    destruct (EncoderBlock_init (classes p) in_c (ec * r) s
                default_dilations bias mode) as [b|] eqn:Eb; [|discriminate].
    cbn [rbind] in H.
    destruct (init_blocks (classes p) ec ratios bias mode (S idx) (ec * r)
                (Some (ec * r)) rest) as [[[bs' c'] o']|] eqn:Et;
      [|discriminate].
    cbn [rbind fst snd] in H. inversion H; subst; clear H.
    cbn [product fold_right] in Hmod |- *. fold (product rest) in Hmod |- *.
    assert (Hs : 0 < s /\ 0 < product rest).
    { destruct s; [cbn in Hmod; lia|].
      destruct (product rest); [rewrite Nat.mul_0_r in Hmod; cbn in Hmod; lia|].
      lia. }
    destruct Hs as [Hs Hp].
    apply Nat.Div0.div_exact in Hmod.
    set (q := T / (s * product rest)) in *.
    assert (Hq : 0 < q) by (destruct q; nia).
    assert (HTs : T / s = product rest * q).
    { rewrite Hmod.
      replace (s * product rest * q) with ((product rest * q) * s) by lia.
      apply Nat.div_mul. lia. }
    destruct (@init_block_forward_shape p in_c (ec * r) s default_dilations
                bias mode b x B T Eb (Hpad s (or_introl eq_refl)) Hx HT)
      as (y & Hy & Hys).
    { rewrite Hmod.
      replace (s * product rest * q) with ((product rest * q) * s) by lia.
      apply Nat.Div0.mod_mul. }
    cbn [forward_blocks]. rewrite Hy. cbn [rbind].
    destruct (IH _ _ _ _ _ _ y B (T / s) Et
                (fun s' Hin => Hpad s' (or_intror Hin)) Hys)
      as (z & Hz & Hzs).
    + rewrite HTs. nia.
    + rewrite HTs. rewrite Nat.mul_comm. apply Nat.Div0.mod_mul.
    + exists z. split; [exact Hz|]. rewrite Hzs.
      rewrite Nat.Div0.div_div. reflexivity.
Qed.

End BranchFacts.

(* ================================================================== *)
(** * Properties: the RIR stack and the complete forward pass *)
(* ================================================================== *)

Section ForwardFacts.
Import SpecLayers.

Lemma torch_Conv1d_shape (cin cout k s pad : nat)
    (kernel : nat -> list (list float) -> float) (x : Tensor) (B T : nat) :
  shape x = [B; cin; T] -> 0 < s -> 0 < k -> k <= pad + T + pad ->
  exists y, TorchNN.Conv1d cin cout k s pad kernel x = Ok y
            /\ shape y = [B; cout; out_len k s (pad + T + pad)].
Proof.
  intros Hx Hs Hk Hn. unfold TorchNN.Conv1d. rewrite Hx.
  apply (@Conv1d_forward_shape
           {| c_in := cin; c_out := cout; kernel_size := k; stride := s;
              pad_left := pad; pad_right := pad; kernel_fn := kernel |}
           x B T); assumption.
Qed.

Lemma BatchNorm1d_shape (n : nat) (norm : nat -> float -> float)
    (x : Tensor) (B T : nat) :
  shape x = [B; n; T] ->
  exists y, TorchNN.BatchNorm1d n norm x = Ok y /\ shape y = [B; n; T].
Proof.
  intros Hx. unfold TorchNN.BatchNorm1d. rewrite Hx, Nat.eqb_refl.
  eexists. split; reflexivity.
Qed.

Lemma RIR_stack_shape
    (w : TorchNN.Weights) (input_channels in_channels : nat)
    (x : Tensor) (B T : nat) :
  shape x = [B; input_channels; T] -> 0 < T ->
  exists y,
    TorchNN.encode_RIR_stack w input_channels in_channels x = Ok y
    /\ shape y = [B; 32 * in_channels; (T - 1) / 900 + 1].
Proof.
  intros Hx HT. unfold TorchNN.encode_RIR_stack.
  destruct (@torch_Conv1d_shape input_channels (16 * in_channels)
              (144 * 100 + 1) 225 (72 * 100) (TorchNN.kernel1 w) x B T Hx)
    as (y1 & H1 & S1); try lia.
  rewrite H1. cbn [rbind].
  assert (L1 : out_len (144 * 100 + 1) 225 (72 * 100 + T + 72 * 100)
               = (T - 1) / 225 + 1).
  { unfold out_len.
    destruct (72 * 100 + T + 72 * 100 <? 144 * 100 + 1) eqn:E;
      [apply Nat.ltb_lt in E; lia|].
    f_equal. f_equal. lia. }
  rewrite L1 in S1. set (a := (T - 1) / 225) in *.
  destruct (@torch_Conv1d_shape (16 * in_channels) (24 * in_channels)
              41 2 20 (TorchNN.kernel2 w)
              (TorchNN.LeakyReLU (TorchNN.leaky w) y1) B (a + 1) S1)
    as (y2 & H2 & S2); try lia.
  rewrite H2. cbn [rbind].
  assert (L2 : forall n, out_len 41 2 (20 + (n + 1) + 20) = n / 2 + 1).
  { intros n. unfold out_len.
    destruct (20 + (n + 1) + 20 <? 41) eqn:E;
      [apply Nat.ltb_lt in E; lia|].
    f_equal. f_equal. lia. }
  rewrite L2 in S2.
  destruct (@BatchNorm1d_shape (24 * in_channels) (TorchNN.norm2 w) y2 B
              (a / 2 + 1) S2) as (y3 & H3 & S3).
  rewrite H3. cbn [rbind].
  destruct (@torch_Conv1d_shape (24 * in_channels) (32 * in_channels)
              41 2 20 (TorchNN.kernel3 w)
              (TorchNN.LeakyReLU (TorchNN.leaky w) y3) B (a / 2 + 1) S3)
    as (y4 & H4 & S4); try lia.
  rewrite H4. cbn [rbind]. rewrite L2 in S4.
  destruct (@BatchNorm1d_shape (32 * in_channels) (TorchNN.norm3 w) y4 B
              (a / 2 / 2 + 1) S4) as (y5 & H5 & S5).
  rewrite H5. cbn [rbind].
  eexists. split; [reflexivity|].
  cbn [TorchNN.LeakyReLU shape]. rewrite S5. subst a.
  rewrite !Nat.Div0.div_div. reflexivity.
Qed.

(** The RIR stack takes a (B, input_channels, T) signal with at least one
    sample to (B, 32 * in_channels, (T - 1) / 900 + 1): one frame for
    every 900 samples, rounded up. *)
Theorem encode_RIR_stack_shape
    (w : TorchNN.Weights) (input_channels in_channels : nat)
    (x : Tensor) (B T : nat) :
  shape x = [B; input_channels; T] -> 0 < T ->
  exists y,
    TorchNN.encode_RIR_stack w input_channels in_channels x = Ok y
    /\ shape y = [B; 32 * in_channels; (T - 1) / 900 + 1].
Proof. exact (@RIR_stack_shape w input_channels in_channels x B T). Qed.

End ForwardFacts.

Section StreamFacts.
Import SpecLayers.

(** Whatever the first operand, a successful [torch.cat((a, b), 2)] with a
    3-axis [b] has the batch and channel sizes of [b]. *)
Lemma torch_cat2_onto (a b r : Tensor) (B C Tb : nat) :
  shape b = [B; C; Tb] ->
  torch_cat [a; b] 2 = Ok r ->
  exists T, shape r = [B; C; T].
Proof.
  intros Hb. unfold torch_cat, same_except, cat_skip, ndim.
  destruct (shape a) as [|a0 [|a1 [|a2 [|a3 rest]]]] eqn:Ea;
    repeat (progress (cbn [existsb filter map length Nat.eqb Nat.leb orb
                           negb forallb firstn skipn andb];
                      rewrite ?Ea, ?Hb));
    try discriminate.
  - destruct (a0 =? 0);
      repeat (progress (cbn [existsb filter map length Nat.eqb Nat.leb orb
                             negb forallb firstn skipn andb];
                        rewrite ?Ea, ?Hb));
      try discriminate.
    intros H. inversion H; subst r.
    repeat (progress (cbn [shape map nth list_sum app]; rewrite ?Hb)).
    eauto.
  - destruct (shape_eqb [a0; a1] [B; C]) eqn:E; [|discriminate].
    apply shape_eqb_eq in E. inversion E; subst a0 a1.
    rewrite shape_eqb_refl. cbn [andb].
    intros H. inversion H; subst r. cbn [shape app]. eauto.
Qed.

Lemma torch_cat2_ok (a b : Tensor) (B C Ta Tb : nat) :
  shape a = [B; C; Ta] -> shape b = [B; C; Tb] ->
  exists r, torch_cat [a; b] 2 = Ok r /\ shape r = [B; C; Ta + Tb].
Proof.
  intros Ha Hb. unfold torch_cat, same_except, cat_skip, ndim.
  repeat (progress (cbn [existsb filter map length Nat.eqb Nat.leb orb
                         negb forallb firstn skipn andb];
                    rewrite ?Ha, ?Hb)).
  rewrite !shape_eqb_refl. cbn [andb].
  eexists. split; [reflexivity|].
  repeat (progress (cbn [shape map nth list_sum app]; rewrite ?Ha, ?Hb)).
  unfold list_sum. cbn [fold_right].
  replace (Ta + (Tb + 0)) with (Ta + Tb) by lia. reflexivity.
Qed.

Lemma VISURAL_RES_NET1_forward_shape (net : VISURAL_RES_NET1)
    (x out : Tensor) :
  VISURAL_RES_NET1_forward net x = Ok out ->
  exists s0 s1, shape out = [s0; 512; 4 * (s1 / 512)].
Proof.
  unfold VISURAL_RES_NET1_forward.
  destruct (feature_extraction1 net x) as [f|]; [|discriminate].
  cbn [rbind].
  destruct (Linear_forward _ _) as [p|]; [|discriminate].
  cbn [rbind]. intros H. change (tile4 p = Ok out) in H.
  exact (tile4_shape _ H).
Qed.

Lemma VISURAL_RES_NET2_forward_shape (net : VISURAL_RES_NET2)
    (x out : Tensor) :
  VISURAL_RES_NET2_forward net x = Ok out ->
  exists s0 s1, shape out = [s0; 512; 4 * (s1 / 512)].
Proof.
  unfold VISURAL_RES_NET2_forward.
  destruct (feature_extraction2 net x) as [f|]; [|discriminate].
  cbn [rbind].
  destruct (Linear_forward _ _) as [p|]; [|discriminate].
  cbn [rbind]. intros H. change (tile4 p = Ok out) in H.
  exact (tile4_shape _ H).
Qed.

(** Every pair of streams [Encoder.forward] returns has exactly 512
    channels in both members, whatever the encoder's channel settings:
    the visual embeddings are 512 wide and [torch.cat] along the time axis
    accepts nothing else beside them. *)
Theorem Encoder_forward_512_channels
    (self : Encoder) (x mi ci x_speech_AV x_rir_AV : Tensor) :
  Encoder_forward self x mi ci = Ok (x_speech_AV, x_rir_AV) ->
  (exists B T, shape x_speech_AV = [B; 512; T])
  /\ (exists B T, shape x_rir_AV = [B; 512; T]).
Proof.
  unfold Encoder_forward.
  destruct (VISURAL_RES_NET1_forward _ mi) as [mi_code|] eqn:Hmi;
    [|discriminate].
  destruct (VISURAL_RES_NET2_forward _ ci) as [ci_code|] eqn:Hci;
    [|discriminate].
  cbn [rbind].
  destruct (forward (conv_combine self) x) as [xc|]; [|discriminate].
  cbn [rbind].
  destruct (forward (conv self) xc) as [x0|]; [|discriminate].
  cbn [rbind].
  destruct (forward_blocks _ x0) as [xs|]; [|discriminate].
  cbn [rbind].
  destruct (encode_RIR self xc) as [xr|]; [|discriminate].
  cbn [rbind].
  destruct (torch_cat [xs; ci_code] 2) as [sa|] eqn:Hsa; [|discriminate].
  destruct (torch_cat [xr; mi_code] 2) as [ra|] eqn:Hra; [|discriminate].
  cbn [rbind]. intros H. inversion H; subst sa ra; clear H.
  destruct (VISURAL_RES_NET1_forward_shape _ _ Hmi) as (m0 & m1 & Sm).
  destruct (VISURAL_RES_NET2_forward_shape _ _ Hci) as (c0 & c1 & Sc).
  split.
  - destruct (@torch_cat2_onto xs ci_code _ _ _ _ Sc Hsa) as [T HT]. eauto.
  - destruct (@torch_cat2_onto xr mi_code _ _ _ _ Sm Hra) as [T HT]. eauto.
Qed.

End StreamFacts.

Section CapstoneFacts.
Import SpecLayers.

(** The fields of a constructed encoder, in terms of the two loops. *)
Lemma Encoder_init_fields
    (lib : LayerClasses) (parts : TorchParts) (ic ec : nat)
    (cr sr rr cs ss rs : list nat) (k : nat) (bias : bool)
    (mode_ : string) (enc : Encoder) :
  Encoder_init lib parts ic ec cr sr rr cs ss rs k bias mode_ = Ok enc ->
  exists Conv cb c1 o1 c2,
    (mode_ = "noncausal"%string /\ Conv = NonCausalConv1d lib
     \/ mode_ = "causal"%string /\ Conv = CausalConv1d lib)
    /\ init_blocks lib ec cr bias mode_ 0 ec None cs = Ok (cb, c1, o1)
    /\ init_blocks lib ec sr bias mode_ 0 c1 o1 ss
       = Ok (seperate_conv_blocks_1 enc, c2, Some (out_channels enc))
    /\ conv enc = Conv ic ec k 1 false
    /\ conv_combine enc = Conv ic ic 3 1 false
    /\ encode_RIR enc = make_encode_RIR parts ic ec
    /\ visual_res_net1 enc = make_visual_res_net1 parts
    /\ visual_res_net2 enc = make_visual_res_net2 parts
    /\ length cr = length cs /\ length sr = length ss.
Proof.
  unfold Encoder_init, py_assert.
  destruct (Nat.eqb_spec (length cr) (length cs)); [|discriminate].
  destruct (Nat.eqb_spec (length sr) (length ss)); [|discriminate].
  destruct (length rr =? length rs); [|discriminate].
  cbn [rbind].
  assert (Hc : exists Conv,
             (if String.eqb mode_ "noncausal" then Ok (NonCausalConv1d lib)
              else if String.eqb mode_ "causal" then Ok (CausalConv1d lib)
                   else Raise NotImplementedError) = Ok Conv
             /\ (mode_ = "noncausal"%string /\ Conv = NonCausalConv1d lib
                 \/ mode_ = "causal"%string /\ Conv = CausalConv1d lib)
           \/ (if String.eqb mode_ "noncausal" then Ok (NonCausalConv1d lib)
               else if String.eqb mode_ "causal" then Ok (CausalConv1d lib)
                    else Raise NotImplementedError)
              = Raise NotImplementedError).
  { destruct (String.eqb_spec mode_ "noncausal"); [eauto 6|].
    destruct (String.eqb_spec mode_ "causal"); [eauto 6|].
    exists (CausalConv1d lib). auto. }
  destruct Hc as (Conv & [[-> HConv] | ->]); [|discriminate].
  cbn [rbind].
  destruct (init_blocks lib ec cr bias mode_ 0 ec None cs)
    as [[[cb c1] o1]|] eqn:Ec; [|discriminate].
  cbn [rbind fst snd].
  destruct (init_blocks lib ec sr bias mode_ 0 c1 o1 ss)
    as [[[sb c2] o2]|] eqn:Es; [|discriminate].
  cbn [rbind fst snd].
  destruct o2 as [o|]; [|discriminate].
  cbn [rbind]. intros H. inversion H; subst enc; clear H.
  exists Conv, cb, c1, o1, c2. cbn. auto 12.
Qed.

(** A stride-1 convolution over the spec-modelled classes whose total
    padding is [kernel_size - 1] keeps the time length. *)
Lemma conv_class_same_length (p : Params) (mode : string)
    (cin cout k : nat) (bias : bool) (x : Tensor) (B T : nat) :
  0 < k -> fst (padding p mode k) + snd (padding p mode k) = k - 1 ->
  shape x = [B; cin; T] -> 0 < T ->
  exists y, forward (conv_class p mode cin cout k 1 bias) x = Ok y
            /\ shape y = [B; cout; T].
Proof.
  intros Hk Hp Hx HT. unfold conv_class. cbn [forward].
  set (pl := fst (padding p mode k)) in *.
  set (pr := snd (padding p mode k)) in *.
  destruct (@Conv1d_forward_shape
              {| c_in := cin; c_out := cout; kernel_size := k; stride := 1;
                 pad_left := pl; pad_right := pr;
                 kernel_fn := conv_kernel p |} x B T)
    as (y & Hy & Hs);
    try (cbn [c_in kernel_size stride pad_left pad_right]; lia);
    [exact Hx|].
  exists y. split; [exact Hy|]. rewrite Hs.
  cbn [kernel_size stride c_out pad_left pad_right]. unfold out_len.
  destruct (pl + T + pr <? k) eqn:E; [apply Nat.ltb_lt in E; lia|].
  rewrite Nat.div_1_r. do 2 f_equal. f_equal. lia.
Qed.

Lemma visual1_pooled (backbone : Callable) (w : Tensor -> list float)
    (x f : Tensor) (B : nat) :
  backbone x = Ok f -> shape f = [B; 512; 1; 1] ->
  exists out,
    VISURAL_RES_NET1_forward (VISURAL_RES_NET1_init backbone w) x = Ok out
    /\ shape out = [B; 512; 4].
Proof.
  intros Hb Hs. unfold VISURAL_RES_NET1_forward, VISURAL_RES_NET1_init.
  cbn [feature_extraction1 predictor1]. rewrite Hb. cbn [rbind].
  destruct (@Linear_512_shape w _ B (squeeze_pooled f Hs)) as (q & Hq & Hqs).
  rewrite Hq. cbn [rbind]. apply (tile4_of_features q Hqs).
Qed.

Lemma visual2_pooled (backbone : Callable) (w : Tensor -> list float)
    (x f : Tensor) (B : nat) :
  backbone x = Ok f -> shape f = [B; 512; 1; 1] ->
  exists out,
    VISURAL_RES_NET2_forward (VISURAL_RES_NET2_init backbone w) x = Ok out
    /\ shape out = [B; 512; 4].
Proof.
  intros Hb Hs. unfold VISURAL_RES_NET2_forward, VISURAL_RES_NET2_init.
  cbn [feature_extraction2 predictor2]. rewrite Hb. cbn [rbind].
  destruct (@Linear_512_shape w _ B (squeeze_pooled f Hs)) as (q & Hq & Hqs).
  rewrite Hq. cbn [rbind]. apply (tile4_of_features q Hqs).
Qed.

Lemma speech_branch_of_init
    (p : Params) (parts : TorchParts) (ic ec : nat)
    (sr rr ss rs : list nat) (k : nat) (bias : bool) (mode_ : string)
    (enc : Encoder) (x : Tensor) (B T : nat) :
  Encoder_init (classes p) parts ic ec [] sr rr [] ss rs k bias mode_
  = Ok enc ->
  0 < k ->
  fst (padding p mode_ k) + snd (padding p mode_ k) = k - 1 ->
  fst (padding p mode_ 3) + snd (padding p mode_ 3) = 2 ->
  (forall s, In s ss ->
     s <= fst (padding p mode_ (2 * s)) + snd (padding p mode_ (2 * s))
       < 2 * s) ->
  shape x = [B; ic; T] -> 0 < T -> T mod product ss = 0 ->
  exists y, speech_branch enc x = Ok y
            /\ shape y = [B; out_channels enc; T / product ss].
Proof.
  intros Hinit Hk Hpk Hp3 Hpad Hx HT Hmod.
  destruct (Encoder_init_fields _ _ _ _ _ _ _ _ _ _ _ _ _ Hinit)
    as (Conv & cb & c1 & o1 & c2 & HConv & Ec & Es & Hconv & Hcomb & _).
  cbn [init_blocks] in Ec. inversion Ec; subst cb c1 o1; clear Ec.
  assert (HC : Conv = conv_class p mode_).
  { destruct HConv as [[-> ->] | [-> ->]]; reflexivity. }
  subst Conv. unfold speech_branch. rewrite Hcomb, Hconv.
  destruct (@conv_class_same_length p mode_ ic ic 3 false x B T
              ltac:(lia) Hp3 Hx HT) as (xc & Hxc & Sxc).
  rewrite Hxc. cbn [rbind].
  destruct (@conv_class_same_length p mode_ ic ec k false xc B T
              Hk Hpk Sxc HT) as (x0 & Hx0 & Sx0).
  rewrite Hx0. cbn [rbind].
  destruct (@init_blocks_forward_shape p ec sr bias mode_ ss 0 ec None
              _ _ _ x0 B T Es Hpad Sx0 HT Hmod) as (y & Hy & Sy).
  exists y. split; [exact Hy|]. rewrite Sy.
  destruct (@init_blocks_ok _ _ _ _ _ _ _ _ _ _ _ _ Es) as (_ & _ & N & C).
  destruct ss as [|s ss'].
  - destruct (N eq_refl) as [_ Ho]. discriminate.
  - destruct (C ltac:(discriminate)) as (_ & Ho & _).
    inversion Ho. reflexivity.
Qed.

(** The speech branch of a constructed encoder that has no combine block:
    the two stride-1 convolutions keep the length, the speech blocks
    divide it by the product of their strides, and the channel width at
    the end is the encoder's [out_channels]. *)
Theorem Encoder_speech_branch_shape
    (p : Params) (parts : TorchParts) (ic ec : nat)
    (sr rr ss rs : list nat) (k : nat) (bias : bool) (mode_ : string)
    (enc : Encoder) (x : Tensor) (B T : nat) :
  Encoder_init (classes p) parts ic ec [] sr rr [] ss rs k bias mode_
  = Ok enc ->
  0 < k ->
  fst (padding p mode_ k) + snd (padding p mode_ k) = k - 1 ->
  fst (padding p mode_ 3) + snd (padding p mode_ 3) = 2 ->
  (forall s, In s ss ->
     s <= fst (padding p mode_ (2 * s)) + snd (padding p mode_ (2 * s))
       < 2 * s) ->
  shape x = [B; ic; T] -> 0 < T -> T mod product ss = 0 ->
  exists y, speech_branch enc x = Ok y
            /\ shape y = [B; out_channels enc; T / product ss].
Proof. exact (@speech_branch_of_init p parts ic ec sr rr ss rs k bias
                mode_ enc x B T). Qed.

(** The complete forward pass of an encoder built by [__init__] without
    combine blocks, over the torch stacks of [__init__] and the
    spec-modelled layer classes under the padding conditions of the
    speech branch (a positive [kernel_size]; stride-1 convolutions padded
    by [kernel_size - 1] in total, the 3-tap convolution by 2; each
    strided convolution by at least its stride and less than twice its
    stride), with [out_channels = 512] and
    [32 * encode_channels = 512], so that both branches end 512 wide:
    for audio of shape (B, input_channels, T), T a positive multiple of
    the cumulative speech stride, and image batches for which the
    backbones return pooled (B, 512, 1, 1) maps, the speech stream has
    shape (B, 512, T / stride + 4) and the RIR stream
    (B, 512, (T - 1) / 900 + 1 + 4). *)
Theorem Encoder_forward_shapes
    (p : Params) (w ws : TorchNN.Weights) (backbone1 backbone2 : Callable)
    (l1 l2 : Tensor -> list float) (ic ec : nat)
    (sr rr ss rs : list nat) (k : nat) (bias : bool) (mode_ : string)
    (enc : Encoder) (x mi ci f1 f2 : Tensor) (B T : nat) :
  Encoder_init (classes p) (TorchNN.parts w ws backbone1 backbone2 l1 l2)
               ic ec [] sr rr [] ss rs k bias mode_ = Ok enc ->
  0 < k ->
  fst (padding p mode_ k) + snd (padding p mode_ k) = k - 1 ->
  fst (padding p mode_ 3) + snd (padding p mode_ 3) = 2 ->
  (forall s, In s ss ->
     s <= fst (padding p mode_ (2 * s)) + snd (padding p mode_ (2 * s))
       < 2 * s) ->
  shape x = [B; ic; T] -> 0 < T -> T mod product ss = 0 ->
  out_channels enc = 512 -> 32 * ec = 512 ->
  backbone1 mi = Ok f1 -> shape f1 = [B; 512; 1; 1] ->
  backbone2 ci = Ok f2 -> shape f2 = [B; 512; 1; 1] ->
  exists sa ra,
    Encoder_forward enc x mi ci = Ok (sa, ra)
    /\ shape sa = [B; 512; T / product ss + 4]
    /\ shape ra = [B; 512; (T - 1) / 900 + 1 + 4].
Proof.
  intros Hinit Hk Hpk Hp3 Hpad Hx HT Hmod Hout Hec Hb1 Hs1 Hb2 Hs2.
  destruct (@speech_branch_of_init p _ ic ec sr rr ss rs k bias mode_
              enc x B T Hinit Hk Hpk Hp3 Hpad Hx HT Hmod) as (xs & Hxs & Sxs).
  destruct (Encoder_init_fields _ _ _ _ _ _ _ _ _ _ _ _ _ Hinit)
    as (Conv & cb & c1 & o1 & c2 & HConv & _ & _ & Hconv & Hcomb & Hrir
        & Hv1 & Hv2 & _).
  assert (HC : Conv = conv_class p mode_).
  { destruct HConv as [[-> ->] | [-> ->]]; reflexivity. }
  subst Conv.
  destruct (@conv_class_same_length p mode_ ic ic 3 false x B T
              ltac:(lia) Hp3 Hx HT) as (xc & Hxc & Sxc).
  unfold speech_branch in Hxs. rewrite Hcomb, Hxc in Hxs.
  cbn [rbind] in Hxs.
  destruct (forward (conv enc) xc) as [x0|] eqn:Hx0; [|discriminate].
  cbn [rbind] in Hxs.
  destruct (@RIR_stack_shape w ic ec xc B T Sxc HT)
    as (xr & Hxr & Sxr).
  destruct (@visual1_pooled backbone1 l1 mi f1 B Hb1 Hs1)
    as (mc & Hmc & Smc).
  destruct (@visual2_pooled backbone2 l2 ci f2 B Hb2 Hs2)
    as (cc & Hcc & Scc).
  rewrite Hout in Sxs. rewrite Hec in Sxr.
  destruct (@torch_cat2_ok xs cc B 512 _ 4 Sxs Scc) as (sa & Hsa & Ssa).
  destruct (@torch_cat2_ok xr mc B 512 _ 4 Sxr Smc) as (ra & Hra & Sra).
  exists sa, ra. split; [|split; assumption].
  unfold Encoder_forward. rewrite Hv1, Hv2. cbn [TorchNN.parts
    make_visual_res_net1 make_visual_res_net2].
  rewrite Hmc, Hcc. cbn [rbind]. rewrite Hcomb, Hxc. cbn [rbind].
  rewrite Hx0. cbn [rbind]. rewrite Hxs. cbn [rbind].
  rewrite Hrir. cbn [TorchNN.parts make_encode_RIR].
  rewrite Hxr. cbn [rbind]. rewrite Hsa. cbn [rbind]. rewrite Hra.
  reflexivity.
Qed.



End CapstoneFacts.

(* ================================================================== *)
(** * Properties: the tiled visual embedding *)
(* ================================================================== *)

Section TilingFacts.

Lemma length_flat_map_firstn (parts : list (nat * list float)) :
  Forall (fun p => fst p <= length (snd p)) parts ->
  length (flat_map (fun p => firstn (fst p) (snd p)) parts)
  = list_sum (map fst parts).
Proof.
  induction 1 as [|p parts Hp _ IH]; [reflexivity|].
  cbn [flat_map map list_sum fold_right]. rewrite length_app, length_firstn.
  unfold list_sum in IH. rewrite IH. lia.
Qed.

(** Chunk [k] of the interleaving is chunk [k] of every operand in turn. *)
Lemma cat_data_chunk :
  forall outer parts k,
    Forall (fun p => length (snd p) = outer * fst p) parts -> k < outer ->
    firstn (list_sum (map fst parts))
           (skipn (k * list_sum (map fst parts)) (cat_data outer parts))
    = flat_map (fun p => firstn (fst p) (skipn (k * fst p) (snd p))) parts.
Proof.
  induction outer as [|o IH]; intros parts k Hall Hk; [lia|].
  cbn [cat_data].
  assert (Hlen : length (flat_map (fun p => firstn (fst p) (snd p)) parts)
                 = list_sum (map fst parts)).
  { apply length_flat_map_firstn. eapply Forall_impl; [|exact Hall].
    intros p Hp. cbn beta in Hp. rewrite Hp. nia. }
  destruct k as [|k].
  - cbn [Nat.mul skipn]. rewrite firstn_app_exact by exact Hlen.
    apply flat_map_ext. intros p. reflexivity.
  - replace (S k * list_sum (map fst parts))
      with (list_sum (map fst parts) + k * list_sum (map fst parts)) by lia.
    rewrite skipn_app_more by exact Hlen.
    assert (Hfst : map fst (map (fun p : nat * list float =>
                                   (fst p, skipn (fst p) (snd p))) parts)
                   = map fst parts).
    { rewrite map_map. apply map_ext. reflexivity. }
    rewrite <- Hfst at 1 2. rewrite IH; [| |lia].
    + rewrite flat_map_concat_map, map_map, <- flat_map_concat_map.
      apply flat_map_ext. intros p. cbn [fst snd].
      rewrite skipn_skipn. do 2 f_equal. lia.
    + apply Forall_map. eapply Forall_impl; [|exact Hall].
      intros p Hp. cbn [fst snd] in *. rewrite length_skipn, Hp. nia.
Qed.

Lemma firstn_1_skipn (d : list float) (k : nat) :
  k < length d -> firstn 1 (skipn k d) = [nth k d PrimFloat.zero].
Proof.
  revert k. induction d as [|v d IH]; intros k Hk; [cbn in Hk; lia|].
  destruct k as [|k]; [reflexivity|].
  cbn [skipn nth]. apply IH. cbn [length] in Hk. lia.
Qed.

(** Tiling a (B, 512) feature matrix: every time row of the result is the
    feature repeated four times. *)
Lemma tile4_rows (pred out : Tensor) (B : nat) :
  shape pred = [B; 512 * 1] -> length (data pred) = B * 512 ->
  tile4 pred = Ok out ->
  forall b c, b < B -> c < 512 ->
    time_row out b c
    = repeat (nth (b * 512 + c) (data pred) PrimFloat.zero) 4.
Proof.
  intros Hp Hd. unfold tile4, size_at, reshape. rewrite Hp.
  cbn [nth_error rbind].
  assert (E : 512 * 1 / 512 = 1) by (vm_compute; reflexivity).
  rewrite E.
  assert (N : (numel [B; 512; 1] =? numel [B; 512 * 1]) = true).
  { apply Nat.eqb_eq. cbn [numel fold_right]. lia. }
  rewrite N. cbn [rbind].
  unfold torch_cat, same_except, cat_skip, ndim.
  cbn [existsb filter map shape data length Nat.eqb Nat.leb orb negb forallb
       firstn skipn andb].
  rewrite !shape_eqb_refl. cbn [andb].
  intros H. inversion H; subst out; clear H.
  intros b c Hb Hc. unfold time_row.
  cbn [shape data nth list_sum fold_right app numel Nat.add].
  replace (B * (512 * 1)) with (B * 512) by lia.
  change (1 * 1) with 1.
  assert (Hk : b * 512 + c < B * 512) by nia.
  assert (Hall : Forall (fun p : nat * list float =>
                           length (snd p) = B * 512 * fst p)
                        [(1, data pred); (1, data pred); (1, data pred);
                         (1, data pred)]).
  { repeat constructor; cbn [fst snd]; lia. }
  pose proof (cat_data_chunk Hall Hk) as Hchunk.
  unfold list_sum in Hchunk.
  cbn [map fst snd fold_right Nat.add flat_map app] in Hchunk.
  rewrite Nat.mul_1_r in Hchunk.
  rewrite firstn_1_skipn in Hchunk by lia.
  exact Hchunk.
Qed.

(** On image batches the backbones accept, both extractors return an
    embedding that is constant along its time axis: each of the four time
    steps of channel [c] holds the [c]-th output of the linear layer. *)
Theorem visual_embedding_constant_in_time
    (backbone : Callable) (w : Tensor -> list float) (x f : Tensor)
    (B : nat) :
  backbone x = Ok f -> shape f = [B; 512; 1; 1] ->
  length (w (squeeze_last (squeeze_last f))) = B * 512 ->
  (exists out,
      VISURAL_RES_NET1_forward (VISURAL_RES_NET1_init backbone w) x = Ok out
      /\ forall b c, b < B -> c < 512 ->
           time_row out b c
           = repeat (nth (b * 512 + c)
                         (w (squeeze_last (squeeze_last f))) PrimFloat.zero)
                    4)
  /\ (exists out,
      VISURAL_RES_NET2_forward (VISURAL_RES_NET2_init backbone w) x = Ok out
      /\ forall b c, b < B -> c < 512 ->
           time_row out b c
           = repeat (nth (b * 512 + c)
                         (w (squeeze_last (squeeze_last f))) PrimFloat.zero)
                    4).
Proof.
  intros Hb Hs Hw.
  destruct (@Linear_512_shape w _ B (squeeze_pooled f Hs)) as (q & Hq & Hqs).
  assert (Hdata : data q = w (squeeze_last (squeeze_last f))).
  { unfold Linear_forward in Hq.
    destruct (_ && _); [|discriminate]. inversion Hq. reflexivity. }
  destruct (tile4_of_features q Hqs) as (out & Hout & _).
  split; exists out; (split;
    [| intros b c Hlb Hlc; rewrite <- Hdata;
       apply (@tile4_rows q out B Hqs); [rewrite Hdata; exact Hw
                                         | exact Hout | exact Hlb
                                         | exact Hlc]]).
  - unfold VISURAL_RES_NET1_forward, VISURAL_RES_NET1_init.
    cbn [feature_extraction1 predictor1]. rewrite Hb. cbn [rbind].
    rewrite Hq. cbn [rbind]. exact Hout.
  - unfold VISURAL_RES_NET2_forward, VISURAL_RES_NET2_init.
    cbn [feature_extraction2 predictor2]. rewrite Hb. cbn [rbind].
    rewrite Hq. cbn [rbind]. exact Hout.
Qed.

End TilingFacts.

(* ================================================================== *)
(** * Properties: the test driver's encode, decode and loaders *)
(* ================================================================== *)

Section TestDriverFacts.
Import CodecTest TestDriver.

(** [TestMain.encode] never returns codes: like [audio_analysis] it calls
    the encoder with the audio alone, so every array with two axes or more
    ends in the [TypeError] of the missing [mi] and [ci], and an array with
    fewer axes in the [IndexError] of the transpose; single- or
    multi-channel makes no difference. *)
Theorem TestMain_encode_raises
    (to_float32 : float -> float) (self : TestMain) (audio : Tensor) :
  encode to_float32 self audio = Raise (analysis_exn audio).
Proof.
  unfold encode, analysis_exn, transpose10, astype_float32, unsqueeze1,
    ndim.
  cbn [shape].
  destruct (multi_channel self);
    destruct (shape audio) as [|a [|b rest]]; reflexivity.
Qed.

(** What [decode] returns does not depend on the decoder type. *)
Lemma decode_any_type (self : TestMain) (zq_speech zq_rir : Tensor) :
  decode self zq_speech zq_rir
  = (y_speech <- decoder_speech (self_decoder self) zq_speech ;;
     y_rir <- decoder_rir (self_decoder self) zq_rir ;;
     Ok (y_speech, y_rir)).
Proof. unfold decode. destruct (py_in _ _); reflexivity. Qed.

Lemma py_in_names (v : pyval) (a b : string) :
  py_in v [a; b] = true -> v = PStr a \/ v = PStr b.
Proof.
  destruct v; cbn [py_in existsb]; try discriminate.
  destruct (String.eqb_spec s a) as [->|]; [auto|].
  destruct (String.eqb_spec s b) as [->|]; [auto|]. discriminate.
Qed.

(** The three loaders accept the model types [symAudioDec] and
    [symAudioDecUniv] only.  For any other value they raise
    [NotImplementedError] before a model is built or a checkpoint opened,
    and leave the attribute as it was. *)
Theorem load_model_unsupported_type
    {G : Type} (model_type : pyval) (checkpoint : string)
    (loader : Loader G) (attr : option G) :
  model_type <> PStr "symAudioDec" ->
  model_type <> PStr "symAudioDecUniv" ->
  load_model model_type checkpoint loader attr
  = (Raise NotImplementedError, attr).
Proof.
  intros N1 N2. unfold load_model, bind, throw.
  destruct (py_in model_type ["symAudioDec"; "symAudioDecUniv"]%string)
    eqn:E; [|reflexivity].
  apply py_in_names in E. tauto.
Qed.

(** A configuration without a [model_type] entry selects [symAudioDec],
    which the loaders accept. *)
Theorem model_type_default (kvs : list (string * pyval)) :
  assoc kvs "model_type" = None ->
  model_type_of (PDict kvs) = Ok (PStr "symAudioDec")
  /\ py_in (PStr "symAudioDec") ["symAudioDec"; "symAudioDecUniv"]%string
     = true.
Proof.
  intros H. unfold model_type_of, dict_get. rewrite H. split; reflexivity.
Qed.

(** Once [load_decoder] has succeeded, the decoder type is none of the
    vocoder names [decode] tests for: its first branch is never taken. *)
Theorem load_decoder_excludes_vocoders
    (model_type : pyval) (checkpoint : string)
    (loader : Loader DecoderModel) (attr : option DecoderModel) :
  fst (load_decoder model_type checkpoint loader attr) = Ok tt ->
  py_in model_type ["HiFiGAN"; "UnivNet"]%string = false.
Proof.
  unfold load_decoder, load_model, bind, throw. intros H.
  destruct (py_in model_type ["symAudioDec"; "symAudioDecUniv"]%string)
    eqn:E; [|discriminate H].
  apply py_in_names in E. destruct E as [-> | ->]; reflexivity.
Qed.

End TestDriverFacts.

(* ================================================================== *)
(** * Properties: the statistics driver's dataset loading *)
(* ================================================================== *)

Section StatDriverFacts.
Import CodecTest StatDriver.

Lemma assoc_update_same (self : Obj) (name : string) (v : pyval) :
  assoc (update self name v) name = Some v.
Proof.
  induction self as [|[k x] rest IH]; cbn [update assoc].
  - rewrite String.eqb_refl. reflexivity.
  - destruct (String.eqb_spec k name) as [->|N]; cbn [assoc].
    + rewrite String.eqb_refl. reflexivity.
    + destruct (String.eqb_spec k name); [contradiction|]. exact IH.
Qed.

Lemma assoc_update_other (self : Obj) (name other : string) (v : pyval) :
  other <> name -> assoc (update self name v) other = assoc self other.
Proof.
  intros N. induction self as [|[k x] rest IH]; cbn [update assoc].
  - destruct (String.eqb_spec name other); [congruence|reflexivity].
  - destruct (String.eqb_spec k name) as [->|Nk]; cbn [assoc].
    + destruct (String.eqb_spec name other); [congruence|reflexivity].
    + destruct (String.eqb_spec k other); [reflexivity|exact IH].
Qed.

Lemma os_path_join_strings (a b : string) :
  exists path, os_path_join (PStr a) (PStr b) = Ok path.
Proof.
  unfold os_path_join. destruct (starts_with_slash b); [eauto|].
  destruct (String.eqb a "" || ends_with_slash a); eauto.
Qed.

(** With a complete configuration [StatisticMain.load_dataset] assigns a
    dataset over the single directory
    [os.path.join(reverb_path, subset directory)], matching "*.wav",
    without utterance ids; every other attribute of the object keeps its
    value. *)
Theorem StatisticMain_load_dataset_ok
    (self : Obj) (subset : string) (subset_num : Z)
    (cfg data subs : list (string * pyval)) (reverb dir clean : string)
    (rir : pyval) :
  assoc self "config" = Some (PDict cfg) ->
  assoc cfg "data" = Some (PDict data) ->
  assoc data "reverb_path" = Some (PStr reverb) ->
  assoc data "subset" = Some (PDict subs) ->
  assoc subs subset = Some (PStr dir) ->
  assoc data "clean_path" = Some (PStr clean) ->
  assoc data "rir_path" = Some rir ->
  exists path self',
    os_path_join (PStr reverb) (PStr dir) = Ok path
    /\ load_dataset subset subset_num self = (Ok tt, self')
    /\ assoc self' "dataset"
       = Some (PDataset {| files := [path]; query := "*.wav";
                           return_utt_id := false;
                           subset_num := subset_num |})
    /\ forall name, name <> "dataset"%string ->
                    assoc self' name = assoc self name.
Proof.
  intros Hc Hd Hr Hs Hsub Hcl Hrir.
  destruct (os_path_join_strings reverb dir) as [path Hp].
  destruct (os_path_join_strings clean dir) as [path' Hp'].
  exists path, (update self "dataset"
                  (PDataset {| files := [path]; query := "*.wav";
                               return_utt_id := false;
                               subset_num := subset_num |})).
  split; [exact Hp|]. split; [|split].
  - unfold load_dataset, config_data, config_subset, bind, lift, getattr,
      setattr, modify, getitem.
    repeat (progress (cbn beta iota zeta;
                      rewrite ?Hc, ?Hd, ?Hr, ?Hs, ?Hsub, ?Hp, ?Hcl, ?Hp',
                        ?Hrir)).
    reflexivity.
  - apply assoc_update_same.
  - intros name N. apply assoc_update_other. exact N.
Qed.

(** The clean and RIR paths are read although the dataset does not use
    them: a configuration without [clean_path], or without [rir_path], is
    a [KeyError], and no dataset is assigned. *)
Theorem StatisticMain_load_dataset_unused_keys
    (self : Obj) (subset : string) (subset_num : Z)
    (cfg data subs : list (string * pyval)) (reverb dir : string) :
  assoc self "config" = Some (PDict cfg) ->
  assoc cfg "data" = Some (PDict data) ->
  assoc data "reverb_path" = Some (PStr reverb) ->
  assoc data "subset" = Some (PDict subs) ->
  assoc subs subset = Some (PStr dir) ->
  assoc data "clean_path" = None
  \/ (exists clean, assoc data "clean_path" = Some (PStr clean))
     /\ assoc data "rir_path" = None ->
  load_dataset subset subset_num self = (Raise KeyError, self).
Proof.
  intros Hc Hd Hr Hs Hsub H.
  destruct (os_path_join_strings reverb dir) as [path Hp].
  unfold load_dataset, config_data, config_subset, bind, lift, getattr,
    setattr, modify, getitem.
  destruct H as [Hcl | [[clean Hcl] Hrir]].
  - repeat (progress (cbn beta iota zeta;
                      rewrite ?Hc, ?Hd, ?Hr, ?Hs, ?Hsub, ?Hp, ?Hcl)).
    reflexivity.
  - destruct (os_path_join_strings clean dir) as [path' Hp'].
    repeat (progress (cbn beta iota zeta;
                      rewrite ?Hc, ?Hd, ?Hr, ?Hs, ?Hsub, ?Hp, ?Hcl, ?Hp',
                        ?Hrir)).
    reflexivity.
Qed.

End StatDriverFacts.

(* ================================================================== *)
(** * Properties: checkpoint paths and the output folder *)
(* ================================================================== *)

Section PathFacts.
Import CodecTest Paths.
Local Open Scope string_scope.

Lemma append_assoc (a b c : string) : (a ++ b) ++ c = a ++ b ++ c.
Proof.
  induction a as [|x a IH]; [reflexivity|].
  cbn [append]. rewrite IH. reflexivity.
Qed.

Lemma has_char_app (c : ascii) (a b : string) :
  has_char c (a ++ b) = has_char c a || has_char c b.
Proof.
  induction a as [|x a IH]; [reflexivity|].
  cbn [append has_char]. rewrite IH. apply orb_assoc.
Qed.

Lemma has_char_cons_same (c : ascii) (b : string) :
  has_char c (String c b) = true.
Proof. cbn [has_char]. rewrite Ascii.eqb_refl. reflexivity. Qed.

Lemma after_last_none (c : ascii) (s : string) :
  has_char c s = false -> after_last c s = s.
Proof.
  destruct s as [|a r]; [reflexivity|].
  cbn [has_char after_last]. intros H. apply orb_false_iff in H.
  destruct H as [-> ->]. reflexivity.
Qed.

Lemma after_last_app (c : ascii) (a b : string) :
  has_char c b = false -> after_last c (a ++ String c b) = b.
Proof.
  intros Hb. induction a as [|x a IH].
  - cbn [append after_last]. rewrite Hb, Ascii.eqb_refl. reflexivity.
  - cbn [append after_last].
    rewrite has_char_app, has_char_cons_same, orb_true_r. exact IH.
Qed.

Lemma upto_last_app (c : ascii) (a b : string) :
  has_char c b = false ->
  upto_last c (a ++ String c b) = a ++ String c "".
Proof.
  intros Hb. induction a as [|x a IH].
  - cbn [append upto_last]. rewrite Hb, Ascii.eqb_refl. reflexivity.
  - cbn [append upto_last].
    rewrite has_char_app, has_char_cons_same, orb_true_r, IH. reflexivity.
Qed.

Lemma upto_last_none (c : ascii) (s : string) :
  has_char c s = false -> upto_last c s = "".
Proof.
  destruct s as [|a r]; [reflexivity|].
  cbn [has_char upto_last]. intros H. apply orb_false_iff in H.
  destruct H as [-> ->]. reflexivity.
Qed.

Lemma rstrip_snoc (c : ascii) (a : string) :
  rstrip c (a ++ String c "") = rstrip c a.
Proof.
  induction a as [|x a IH].
  - cbn [append rstrip]. rewrite Ascii.eqb_refl. reflexivity.
  - cbn [append rstrip]. rewrite IH. reflexivity.
Qed.

Lemma rstrip_keeps (a : string) :
  ends_with_slash a = false -> rstrip "/" a = a.
Proof.
  induction a as [|x a IH]; [reflexivity|].
  cbn [ends_with_slash rstrip]. destruct a as [|y a'].
  - intros ->. reflexivity.
  - intros H. rewrite (IH H). reflexivity.
Qed.

Lemma all_char_open (a : string) :
  a <> "" -> ends_with_slash a = false -> all_char "/" a = false.
Proof.
  induction a as [|x a IH]; [congruence|].
  intros _. cbn [ends_with_slash all_char]. destruct a as [|y a'].
  - intros ->. reflexivity.
  - intros H. rewrite IH by (congruence || exact H). apply andb_false_r.
Qed.

Lemma all_char_app (c : ascii) (a b : string) :
  all_char c (a ++ b) = all_char c a && all_char c b.
Proof.
  induction a as [|x a IH]; [reflexivity|].
  cbn [append all_char]. rewrite IH. apply andb_assoc.
Qed.

Lemma ends_with_slash_app (a b : string) :
  b <> "" -> ends_with_slash (a ++ b) = ends_with_slash b.
Proof.
  intros Hb. induction a as [|x a IH]; [reflexivity|].
  cbn [append ends_with_slash]. rewrite IH.
  destruct (a ++ b) eqn:E; [|reflexivity].
  destruct a; cbn in E; [congruence | discriminate].
Qed.

Lemma ends_with_slash_free (b : string) :
  has_char "/" b = false -> ends_with_slash b = false.
Proof.
  induction b as [|x b IH]; [reflexivity|].
  cbn [has_char ends_with_slash]. intros H. apply orb_false_iff in H.
  destruct H as [Hx Hb]. destruct b; [exact Hx | exact (IH Hb)].
Qed.

(** [dirname] and [basename] of a directory joined to a file name. *)
Lemma dirname_join (d f : string) :
  d <> "" -> ends_with_slash d = false -> has_char "/" f = false ->
  dirname (d ++ String "/" f) = d /\ basename (d ++ String "/" f) = f.
Proof.
  intros Hd He Hf. split.
  - unfold dirname. rewrite upto_last_app by exact Hf.
    rewrite all_char_app, (all_char_open Hd He). cbn [andb negb].
    replace (String.eqb (d ++ String "/" "") "") with false
      by (destruct d; [congruence | reflexivity]).
    cbn [negb andb]. rewrite rstrip_snoc. apply rstrip_keeps. exact He.
  - unfold basename. apply after_last_app. exact Hf.
Qed.

Lemma prefix_app (s v : string) : String.prefix s (s ++ v) = true.
Proof.
  induction s as [|a s IH]; [destruct v; reflexivity|].
  cbn [append String.prefix].
  destruct (ascii_dec a a); [exact IH | congruence].
Qed.

Lemma before_first_app (c : ascii) (sep u v : string) :
  has_char c u = false ->
  before_first (String c sep) (u ++ String c (sep ++ v)) = u.
Proof.
  intros Hu. induction u as [|x u IH].
  - cbn [append before_first String.prefix].
    destruct (ascii_dec c c); [|congruence].
    rewrite prefix_app. reflexivity.
  - cbn [has_char] in Hu. apply orb_false_iff in Hu.
    destruct Hu as [Hx Hu].
    cbn [append before_first String.prefix].
    destruct (ascii_dec c x) as [->|_];
      [rewrite Ascii.eqb_refl in Hx; discriminate|].
    rewrite (IH Hu). reflexivity.
Qed.

(** The configuration of a checkpoint is looked for next to it:
    [dir/config.yml] for a checkpoint [dir/file], and [config.yml] in the
    working directory for a checkpoint given without a directory. *)
Theorem config_path_beside_checkpoint (d f : string) :
  has_char "/" f = false ->
  (d <> "" -> ends_with_slash d = false ->
   config_path (d ++ "/" ++ f) "config.yml" = Ok (d ++ "/config.yml"))
  /\ config_path f "config.yml" = Ok "config.yml".
Proof.
  intros Hf. split.
  - intros Hd He. unfold config_path.
    change (d ++ "/" ++ f) with (d ++ String "/" f).
    destruct (@dirname_join d f Hd He Hf) as [-> _].
    unfold os_path_join. cbn [starts_with_slash Ascii.eqb Bool.eqb].
    rewrite He. rewrite orb_false_r.
    destruct (String.eqb_spec d ""); [contradiction | reflexivity].
  - unfold config_path, dirname. rewrite (upto_last_none _ _ Hf).
    reflexivity.
Qed.

(** The names [initial_folder] derives from a checkpoint path
    [root/name/prefix-tag"steps"suffix]: the model name is the last
    directory, the step tag what stands between the last hyphen and the
    first "steps" of the file name. *)
Theorem checkpoint_names (root name pre tag suf : string) :
  name <> "" -> has_char "/" name = false ->
  has_char "/" (pre ++ "-" ++ tag ++ "steps" ++ suf) = false ->
  has_char "s" (pre ++ "-" ++ tag) = false ->
  has_char "-" tag = false ->
  let checkpoint :=
    root ++ "/" ++ name ++ "/" ++ pre ++ "-" ++ tag ++ "steps" ++ suf in
  model_name checkpoint = name /\ step_tag checkpoint = tag.
Proof.
  intros Hn Hns Hfile Hs Hh checkpoint.
  set (file := pre ++ "-" ++ tag ++ "steps" ++ suf) in *.
  set (d := root ++ String "/" name).
  assert (Hc : checkpoint = d ++ String "/" file).
  { subst checkpoint d file. cbn [append].
    rewrite !append_assoc. reflexivity. }
  assert (Hd : d <> "").
  { subst d. destruct root; discriminate. }
  assert (He : ends_with_slash d = false).
  { subst d. rewrite ends_with_slash_app by discriminate.
    cbn [ends_with_slash]. destruct name; [congruence|].
    apply ends_with_slash_free. exact Hns. }
  destruct (@dirname_join d file Hd He Hfile) as [Hdir Hbase].
  unfold model_name, step_tag. rewrite Hc, Hdir, Hbase. split.
  - subst d. apply after_last_app. exact Hns.
  - subst file.
    replace (pre ++ "-" ++ tag ++ "steps" ++ suf)
      with ((pre ++ "-" ++ tag) ++ String "s" ("teps" ++ suf))
      by (rewrite !append_assoc; reflexivity).
    change "steps" with (String "s" "teps").
    rewrite before_first_app by exact Hs.
    change (pre ++ "-" ++ tag) with (pre ++ String "-" tag).
    apply after_last_app. exact Hh.
Qed.

End PathFacts.

Section FolderFacts.
Import CodecTest Paths.
Local Open Scope string_scope.

(** [initial_folder] on an object with both checkpoint paths and an
    encoder configuration that lists the subset: the output directory is
    [output_name / encoder-decoder_etag-dtag / subset directory], it is
    stored in [self.outdir], and [os.makedirs] is called for it exactly
    when it does not exist yet; the call then ends as [os.makedirs]
    does. *)
Theorem initial_folder_outdir
    (path_exists : string -> bool) (os_makedirs : string -> result unit)
    (subset output_name : string)
    (w : World) (e d setdir : string)
    (cfg data subs : list (string * pyval)) :
  assoc (self w) "encoder_checkpoint" = Some (PStr e) ->
  assoc (self w) "decoder_checkpoint" = Some (PStr d) ->
  assoc (self w) "encoder_config" = Some (PDict cfg) ->
  assoc cfg "data" = Some (PDict data) ->
  assoc data "subset" = Some (PDict subs) ->
  assoc subs subset = Some (PStr setdir) ->
  let testdir := model_name e ++ "-" ++ model_name d ++ "_"
                 ++ step_tag e ++ "-" ++ step_tag d in
  exists p outdir,
    os_path_join (PStr output_name) (PStr testdir) = Ok p
    /\ os_path_join (PStr p) (PStr setdir) = Ok outdir
    /\ initial_folder path_exists os_makedirs subset output_name w
       = ((if path_exists outdir then Ok tt else os_makedirs outdir),
          {| self := update (self w) "outdir" (PStr outdir);
             made := if path_exists outdir then made w
                     else (made w ++ [outdir])%list |}).
Proof.
  intros He Hd Hc Hdata Hsub Hset testdir.
  destruct (os_path_join_strings output_name testdir) as [p Hp].
  destruct (os_path_join_strings p setdir) as [outdir Ho].
  exists p, outdir. split; [exact Hp|]. split; [exact Ho|].
  unfold initial_folder, bind, lift, on_self, getattr, setattr, modify,
    fspath, getitem, makedirs, ret.
  repeat (progress (cbn beta iota zeta; cbn [self made];
                    rewrite ?He, ?Hd, ?Hc, ?Hdata, ?Hsub, ?Hset)).
  fold testdir. rewrite Hp. cbn beta iota zeta. rewrite Ho.
  cbn beta iota zeta. cbn [self made].
  destruct (path_exists outdir); reflexivity.
Qed.

(** A call of [initial_folder] that raises has either left everything as
    it was ([self.outdir] not assigned, [os.makedirs] not called), or it
    is [os.makedirs] that raised, on a path that did not exist, and
    [self.outdir] already names that path. *)
Theorem initial_folder_failure_states
    (path_exists : string -> bool) (os_makedirs : string -> result unit)
    (subset output_name : string) (w : World) (e : exn) :
  fst (initial_folder path_exists os_makedirs subset output_name w)
  = Raise e ->
  snd (initial_folder path_exists os_makedirs subset output_name w) = w
  \/ exists outdir,
       path_exists outdir = false
       /\ os_makedirs outdir = Raise e
       /\ snd (initial_folder path_exists os_makedirs subset output_name w)
          = {| self := update (self w) "outdir" (PStr outdir);
               made := (made w ++ [outdir])%list |}.
Proof.
  destruct w as [s m].
  unfold initial_folder, bind, lift, on_self, getattr, setattr, modify,
    fspath, getitem, makedirs, ret.
  cbn [self made].
  repeat match goal with
         | |- context [match assoc ?l ?k with _ => _ end] =>
             destruct (assoc l k); cbn beta iota zeta; cbn [self made fst snd];
             try (intros _; left; reflexivity)
         | |- context [match ?v with PNone => _ | _ => _ end] =>
             destruct v; cbn beta iota zeta; cbn [self made fst snd];
             try (intros _; left; reflexivity)
         | |- context [os_path_join ?a ?b] =>
             destruct (os_path_join a b); cbn beta iota zeta;
             cbn [self made fst snd]; try (intros _; left; reflexivity)
         | |- context [path_exists ?p] =>
             destruct (path_exists p) eqn:?; cbn beta iota zeta;
             cbn [self made fst snd]
         end;
    try discriminate.
  all: intros H; right; eexists; split; [eassumption|];
    split; [exact H | reflexivity].
Qed.

End FolderFacts.

(* ================================================================== *)
(** * The further theorems at concrete instances *)
(* ================================================================== *)

Section MoreInstances.
Import SpecLayers CodecTest TestDriver Paths MoreExamples.

Lemma example_padding (s : nat) :
  In s [3; 5; 5] ->
  s <= fst (padding Examples.params "causal" (2 * s))
       + snd (padding Examples.params "causal" (2 * s)) < 2 * s.
Proof.
  intros [<- | [<- | [<- | []]]]; cbn; lia.
Qed.


(** The defaults of [Encoder.__init__] do not construct. *)
Lemma Encoder_init_length_mismatch_witness :
  Encoder_init_defaults (classes Examples.params) parts 1 16
  = Raise AssertionError.
Proof.
  apply Encoder_init_length_mismatch. right. right. cbn. lia.
Defined.

Lemma Encoder_init_bad_mode_or_no_block_witness :
  Encoder_init (classes Examples.params) parts 1 16
    [] [8] [] [] [3] [] 7 true "streaming" = Raise NotImplementedError
  /\ Encoder_init (classes Examples.params) parts 1 16
       [] [] [] [] [] [] 7 true "causal" = Raise UnboundLocalError.
Proof.
  split.
  - apply (proj1 (@Encoder_init_bad_mode_or_no_block
                    (classes Examples.params) parts 1 16 [] [8] [] [] [3] []
                    7 true "streaming" eq_refl eq_refl eq_refl)).
    split; discriminate.
  - apply (proj2 (@Encoder_init_bad_mode_or_no_block
                    (classes Examples.params) parts 1 16 [] [] [] [] [] []
                    7 true "causal" eq_refl eq_refl eq_refl));
      auto.
Defined.

Lemma Encoder_init_structure_witness :
  exists enc,
    built = Ok enc
    /\ mode enc = "causal"%string
    /\ length (seperate_conv_blocks_1 enc) = 3
    /\ out_channels enc = 512.
Proof.
  destruct built as [enc|e] eqn:E; [|discriminate E].
  exists enc. split; [reflexivity|]. unfold built in E.
  destruct (Encoder_init_structure _ _ _ _ _ _ _ _ _ _ _ _ _ E)
    as (Hm & _ & _ & Hl & _ & Ho).
  repeat split; assumption.
Defined.

Lemma Encoder_speech_branch_shape_witness :
  exists enc y,
    built = Ok enc
    /\ speech_branch enc audio75 = Ok y
    /\ shape y = [1; out_channels enc; 75 / 75].
Proof.
  destruct built as [enc|e] eqn:E; [|discriminate E]. unfold built in E.
  destruct (@Encoder_speech_branch_shape Examples.params parts 1 16
              [8; 16; 32] [8; 8; 16; 32; 32] [3; 5; 5] [2; 3; 5; 5; 5]
              7 true "causal" enc audio75 1 75 E)
    as (y & Hy & Hs);
    try reflexivity; try lia; [exact example_padding|].
  exists enc, y. auto.
Defined.

Lemma encode_RIR_stack_shape_witness :
  exists y,
    TorchNN.encode_RIR_stack weights 1 16 audio75 = Ok y
    /\ shape y = [1; 32 * 16; (75 - 1) / 900 + 1].
Proof.
  apply (@encode_RIR_stack_shape weights 1 16 audio75 1 75);
    [reflexivity | lia].
Defined.

Lemma Encoder_forward_shapes_witness :
  exists enc sa ra,
    built = Ok enc
    /\ Encoder_forward enc audio75 Examples.image Examples.image
       = Ok (sa, ra)
    /\ shape sa = [1; 512; 75 / 75 + 4]
    /\ shape ra = [1; 512; (75 - 1) / 900 + 1 + 4].
Proof.
  destruct built as [enc|e] eqn:E; [|discriminate E]. unfold built in E.
  assert (Ho : out_channels enc = 512).
  { unfold Encoder_init in E. cbn in E. inversion E. reflexivity. }
  destruct (@Encoder_forward_shapes Examples.params weights weights
              (Examples.backbone PrimFloat.one)
              (Examples.backbone PrimFloat.two) ones ones 1 16
              [8; 16; 32] [8; 8; 16; 32; 32] [3; 5; 5] [2; 3; 5; 5; 5]
              7 true "causal" enc audio75 Examples.image Examples.image
              (Examples.constant [1; 512; 1; 1] PrimFloat.one)
              (Examples.constant [1; 512; 1; 1] PrimFloat.two) 1 75 E)
    as (sa & ra & H);
    try reflexivity; try lia; try exact Ho; [exact example_padding|].
  exists enc, sa, ra. split; [reflexivity | exact H].
Defined.

Lemma Encoder_forward_512_channels_witness :
  exists sa ra,
    Examples.streams = Ok (sa, ra)
    /\ (exists B T, shape sa = [B; 512; T])
    /\ (exists B T, shape ra = [B; 512; T]).
Proof.
  destruct Examples.streams as [[sa ra]|] eqn:E; [|discriminate E].
  assert (F : Encoder_forward (Examples.encoder_in "causal") Examples.audio
                Examples.image Examples.image = Ok (sa, ra)).
  { rewrite <- E. vm_compute. reflexivity. }
  exists sa, ra. split; [reflexivity|].
  exact (Encoder_forward_512_channels _ _ _ _ F).
Defined.

Lemma visual_embedding_constant_in_time_witness :
  (exists out,
      VISURAL_RES_NET1_forward
        (VISURAL_RES_NET1_init (Examples.backbone PrimFloat.two) ones)
        Examples.image = Ok out
      /\ time_row out 0 7
         = [PrimFloat.one; PrimFloat.one; PrimFloat.one; PrimFloat.one])
  /\ (exists out,
      VISURAL_RES_NET2_forward
        (VISURAL_RES_NET2_init (Examples.backbone PrimFloat.two) ones)
        Examples.image = Ok out
      /\ time_row out 0 7
         = [PrimFloat.one; PrimFloat.one; PrimFloat.one; PrimFloat.one]).
Proof.
  destruct (@visual_embedding_constant_in_time
              (Examples.backbone PrimFloat.two) ones Examples.image
              (Examples.constant [1; 512; 1; 1] PrimFloat.two) 1
              eq_refl eq_refl eq_refl)
    as [(o1 & H1 & R1) (o2 & H2 & R2)].
  split; [exists o1 | exists o2]; (split; [assumption|]).
  - rewrite (R1 0 7) by lia. reflexivity.
  - rewrite (R2 0 7) by lia. reflexivity.
Defined.


Lemma load_model_unsupported_type_witness :
  load_decoder (PStr "HiFiGAN") "exp/vocoder/checkpoint-500000steps.pkl"
               good_checkpoint None
  = (Raise NotImplementedError, None).
Proof.
  apply (@load_model_unsupported_type DecoderModel); discriminate.
Defined.

Lemma load_decoder_excludes_vocoders_witness :
  py_in (PStr "symAudioDecUniv") ["HiFiGAN"; "UnivNet"]%string = false.
Proof.
  apply (@load_decoder_excludes_vocoders (PStr "symAudioDecUniv")
           "exp/symAD/checkpoint-500000steps.pkl" good_checkpoint None).
  reflexivity.
Defined.

Lemma StatisticMain_load_dataset_ok_witness :
  exists self',
    StatDriver.load_dataset "train" (-1) (stat_main true) = (Ok tt, self')
    /\ assoc self' "dataset"
       = Some (PDataset {| files := ["data/reverb/train"%string];
                           query := "*.wav"; return_utt_id := false;
                           subset_num := (-1)%Z |}).
Proof.
  destruct (@StatisticMain_load_dataset_ok (stat_main true) "train" (-1)%Z
              _ _ _ "data/reverb" "train" "data/clean" (PStr "data/rir")
              eq_refl eq_refl eq_refl eq_refl eq_refl eq_refl eq_refl)
    as (path & self' & Hp & Hl & Hd & _).
  exists self'. split; [exact Hl|].
  cbn in Hp. inversion Hp; subst path. exact Hd.
Defined.

Lemma StatisticMain_load_dataset_unused_keys_witness :
  StatDriver.load_dataset "train" (-1) (stat_main false)
  = (Raise KeyError, stat_main false).
Proof.
  apply (@StatisticMain_load_dataset_unused_keys (stat_main false) "train"
           (-1)%Z _ _ _ "data/reverb" "train"
           eq_refl eq_refl eq_refl eq_refl eq_refl).
  right. split; [exists "data/clean"%string; reflexivity | reflexivity].
Defined.

Lemma config_path_beside_checkpoint_witness :
  config_path "exp/symAD/checkpoint-200000steps.pkl" "config.yml"
  = Ok "exp/symAD/config.yml"%string.
Proof.
  apply (proj1 (@config_path_beside_checkpoint "exp/symAD"
                  "checkpoint-200000steps.pkl" eq_refl));
    [discriminate | reflexivity].
Defined.

Lemma checkpoint_names_witness :
  model_name "exp/autoencoder/symAD_a/checkpoint-200000steps.pkl"
  = "symAD_a"%string
  /\ step_tag "exp/autoencoder/symAD_a/checkpoint-200000steps.pkl"
     = "200000"%string.
Proof.
  apply (@checkpoint_names "exp/autoencoder" "symAD_a" "checkpoint" "200000"
           ".pkl"); (discriminate || reflexivity).
Defined.

Lemma initial_folder_outdir_witness :
  initial_folder (fun _ => false) (fun _ => Ok tt) "test" "output"
                 folder_world
  = (Ok tt,
     {| self := update (self folder_world) "outdir"
                  (PStr "output/symAD_a-symAD_b_200000-500000/test");
        made := ["output/symAD_a-symAD_b_200000-500000/test"%string] |}).
Proof.
  destruct (@initial_folder_outdir (fun _ => false) (fun _ => Ok tt)
              "test" "output" folder_world _ _ "test" _ _ _
              eq_refl eq_refl eq_refl eq_refl eq_refl eq_refl)
    as (p & outdir & Hp & Ho & H).
  cbn in Hp. inversion Hp; subst p.
  cbn in Ho. inversion Ho; subst outdir.
  exact H.
Defined.

(** A subset the encoder configuration does not list fails before
    anything is assigned; a directory that cannot be created fails with
    [self.outdir] assigned. *)
Lemma initial_folder_failure_states_witness :
  snd (initial_folder (fun _ => false) read_only "valid" "output"
                      folder_world)
  = folder_world
  /\ snd (initial_folder (fun _ => false) read_only "test" "output"
                         folder_world)
     = {| self := update (self folder_world) "outdir"
                    (PStr "output/symAD_a-symAD_b_200000-500000/test");
          made := ["output/symAD_a-symAD_b_200000-500000/test"%string] |}.
Proof.
  split.
  - destruct (@initial_folder_failure_states (fun _ => false) read_only
                "valid" "output" folder_world KeyError eq_refl)
      as [H | (outdir & _ & H & _)]; [exact H | discriminate H].
  - destruct (@initial_folder_failure_states (fun _ => false) read_only
                "test" "output" folder_world OSError eq_refl)
      as [H | (outdir & _ & _ & H)]; [discriminate H|].
    rewrite H. vm_compute in H. inversion H. reflexivity.
Defined.

End MoreInstances.
